(** * Selection and visibility reconciliation of the tab sheet and the
      checkbox group

    A shallow embedding of
    - [packages/tabsheet/src/vaadin-tabsheet-mixin.js] (module [TabSheet]) and
    - [packages/checkbox-group/src/vaadin-checkbox-group.js]
      (module [CheckboxGroup]),
    followed by the theorems that settle the properties C1 to C10 of the
    specification.

    DOM elements and JavaScript arrays are objects with identity: they live in
    finite maps keyed by references, and the functions below pass references
    around exactly where the JavaScript passes objects. *)

From stdpp Require Import gmap strings list pretty.
From Stdlib Require Import ZArith.

(** The two exception classes raised by the code under study. *)
Inductive js_error :=
  | Error (msg : string)
  | TypeError (msg : string).

(** The double quote character, to spell messages that contain it. *)
Definition dquote : string := String (Ascii.ascii_of_nat 34) EmptyString.

(* ===================================================================== *)
(** * The tab sheet *)
(* ===================================================================== *)
Module TabSheet.

(** References to DOM elements. *)
Abbreviation ref := positive.

(** A JavaScript array of elements. [arr_loc] is the identity of the array
    object: the property system compares arrays with [!==], never by
    contents. The tab sheet only reads these arrays. *)
Record Arr := mkArr { arr_loc : positive; arr_elems : list ref }.

(** The value of the [selected] property: [undefined] or a number. Only
    integral numbers index an array; every other number behaves like an index
    that is out of range. *)
Inductive jsnumber :=
  | Undefined
  | Number (z : Z).

(** The state of a [<vaadin-tabs>] element the tab sheet looks at. *)
Record Tabs := mkTabs {
  tabs_items : option Arr;
  tabs_selected : jsnumber;
  tabs_on_items_changed : bool;     (* the controller's listener is attached *)
  tabs_on_selected_changed : bool;
}.

(** A DOM element. [el_attrs] answers [getAttribute]/[setAttribute];
    [el_vaadin_tabs] is [Some] exactly for instances of the class registered
    as [vaadin-tabs]. *)
Record Element := mkElement {
  el_id : string;
  el_role : option string;
  el_hidden : bool;
  el_attrs : gmap string string;
  el_vaadin_tabs : option Tabs;
}.

(** The host [<vaadin-tabsheet>], its slot controller, the content part of
    its shadow root and the elements of the document. *)
Record State := mkState {
  elements : gmap ref Element;
  items : option Arr;               (* this.items *)
  selected : jsnumber;              (* this.selected *)
  __tabs : option ref;              (* this.__tabs *)
  __panels : option Arr;            (* this.__panels *)
  stateTarget : option ref;         (* this.stateTarget *)
  loading : bool;                   (* the host's [loading] attribute *)
  content_minHeight : string;       (* content.style.minHeight *)
  content_offsetHeight : N;         (* content.offsetHeight, set by layout *)
  controller_tabs : option ref;     (* TabsSlotController: this.tabs *)
  uniqueId : nat;                   (* counter behind generateUniqueId() *)
}.

Inductive outcome :=
  | Done (w : State)
  | Throw (e : js_error).

(** ** Field updates *)

Definition set_elements (f : gmap ref Element → gmap ref Element) (w : State) : State :=
  mkState (f (elements w)) (items w) (selected w) (__tabs w) (__panels w)
    (stateTarget w) (loading w) (content_minHeight w) (content_offsetHeight w)
    (controller_tabs w) (uniqueId w).

Definition set_items (v : option Arr) (w : State) : State :=
  mkState (elements w) v (selected w) (__tabs w) (__panels w)
    (stateTarget w) (loading w) (content_minHeight w) (content_offsetHeight w)
    (controller_tabs w) (uniqueId w).

Definition set___tabs (v : option ref) (w : State) : State :=
  mkState (elements w) (items w) (selected w) v (__panels w)
    (stateTarget w) (loading w) (content_minHeight w) (content_offsetHeight w)
    (controller_tabs w) (uniqueId w).

Definition set_stateTarget (v : option ref) (w : State) : State :=
  mkState (elements w) (items w) (selected w) (__tabs w) (__panels w)
    v (loading w) (content_minHeight w) (content_offsetHeight w)
    (controller_tabs w) (uniqueId w).

Definition set_loading (b : bool) (w : State) : State :=
  mkState (elements w) (items w) (selected w) (__tabs w) (__panels w)
    (stateTarget w) b (content_minHeight w) (content_offsetHeight w)
    (controller_tabs w) (uniqueId w).

Definition set_minHeight (s : string) (w : State) : State :=
  mkState (elements w) (items w) (selected w) (__tabs w) (__panels w)
    (stateTarget w) (loading w) s (content_offsetHeight w)
    (controller_tabs w) (uniqueId w).

Definition set_controller_tabs (v : option ref) (w : State) : State :=
  mkState (elements w) (items w) (selected w) (__tabs w) (__panels w)
    (stateTarget w) (loading w) (content_minHeight w) (content_offsetHeight w)
    v (uniqueId w).

Definition set_uniqueId (n : nat) (w : State) : State :=
  mkState (elements w) (items w) (selected w) (__tabs w) (__panels w)
    (stateTarget w) (loading w) (content_minHeight w) (content_offsetHeight w)
    (controller_tabs w) n.

Definition with_id (s : string) (e : Element) : Element :=
  mkElement s (el_role e) (el_hidden e) (el_attrs e) (el_vaadin_tabs e).
Definition with_role (s : option string) (e : Element) : Element :=
  mkElement (el_id e) s (el_hidden e) (el_attrs e) (el_vaadin_tabs e).
Definition with_hidden (b : bool) (e : Element) : Element :=
  mkElement (el_id e) (el_role e) b (el_attrs e) (el_vaadin_tabs e).
Definition with_attr (name v : string) (e : Element) : Element :=
  mkElement (el_id e) (el_role e) (el_hidden e) (<[name:=v]> (el_attrs e))
    (el_vaadin_tabs e).
Definition with_vaadin_tabs (f : Tabs → Tabs) (e : Element) : Element :=
  mkElement (el_id e) (el_role e) (el_hidden e) (el_attrs e)
    (f <$> el_vaadin_tabs e).

(** ** DOM accessors *)

(** [el.getAttribute(name)]; [None] is JavaScript's [null]. *)
Definition getAttribute (w : State) (r : ref) (name : string) : option string :=
  e ← elements w !! r; el_attrs e !! name.

Definition setAttribute (r : ref) (name v : string) (w : State) : State :=
  set_elements (alter (with_attr name v) r) w.

(** [el.id]; an element without an id answers the empty string. *)
Definition id_of (w : State) (r : ref) : string :=
  default EmptyString (el_id <$> elements w !! r).

(** [el.hidden]. *)
Definition hidden (w : State) (r : ref) : bool :=
  default false (el_hidden <$> elements w !! r).

Definition set_hidden (r : ref) (b : bool) (w : State) : State :=
  set_elements (alter (with_hidden b) r) w.

(** The [<vaadin-tabs>] state of [r], for
    [r instanceof customElements.get('vaadin-tabs')]. *)
Definition vaadin_tabs (w : State) (r : ref) : option Tabs :=
  e ← elements w !! r; el_vaadin_tabs e.

(** [array[index]]: [None] is [undefined]. *)
Definition index (l : list ref) (i : jsnumber) : option ref :=
  match i with
  | Undefined => None
  | Number z => if decide (0 ≤ z)%Z then l !! Z.to_nat z else None
  end.

(** [panels.find((panel) => panel.getAttribute('tab') === tabId)]. *)
Definition find_panel (w : State) (panels : list ref) (tabId : string) : option ref :=
  snd <$> list_find (λ panel, getAttribute w panel "tab" = Some tabId) panels.

(** ** The observers of the mixin *)

(** [const selectedTab = items[selected];
     const selectedTabId = selectedTab ? selectedTab.id : '';] *)
Definition selectedTabId (w : State) (items : list ref) (selected : jsnumber) : string :=
  match index items selected with
  | Some selectedTab => id_of w selectedTab
  | None => EmptyString
  end.

(** [panels.filter((panel) => !panel.hidden).length === 1]. *)
Definition hasOneVisiblePanel (w : State) (panels : list ref) : bool :=
  bool_decide (length (filter (λ panel, hidden w panel = false) panels) = 1).

(** [__selectedTabItemChanged(selected, items, panels)]: toggles the
    visibility of the panels based on the selected tab. *)
Definition __selectedTabItemChanged
    (selected : jsnumber) (items panels : option (list ref)) (w : State) : State :=
  match items, panels, selected with
  | Some items, Some panels, Number _ =>
      let selectedPanel := find_panel w panels (selectedTabId w items selected) in
      (* Mark loading state if a selected panel is not found. *)
      let w := set_loading (bool_decide (selectedPanel = None)) w in
      let w :=
        match selectedPanel with
        | Some _ =>
            (* A selected panel is found, remove the loading state fallback height. *)
            set_minHeight EmptyString w
        | None =>
            if hasOneVisiblePanel w panels
            then set_minHeight (pretty (content_offsetHeight w) +:+ "px") w
            else w
        end in
      (* Hide all panels and show only the selected panel. *)
      foldl (λ w panel, set_hidden panel (bool_decide (Some panel ≠ selectedPanel)) w)
        w panels
  | _, _, _ => w
  end.

(** Modelled from the spec: [generateUniqueId()] of the component base is not
    among the files verified here; the specification only asks for "a
    generated stable identifier", which a counter provides. *)
Definition generateUniqueId (w : State) : nat * State :=
  (uniqueId w, set_uniqueId (S (uniqueId w)) w).

Definition set_role (r : ref) (role : string) (w : State) : State :=
  set_elements (alter (with_role (Some role)) r) w.

Definition set_id (r : ref) (id : string) (w : State) : State :=
  set_elements (alter (with_id id) r) w.

(** [__itemsOrPanelsChanged(items, panels)]: applies the roles and ARIA
    attributes that associate the tab elements with the panels. *)
Definition __itemsOrPanelsChanged (items panels : option (list ref)) (w : State) : State :=
  match items, panels with
  | Some items, Some panels =>
      foldl (λ w tabItem,
        match find_panel w panels (id_of w tabItem) with
        | Some panel =>
            let w := set_role panel "tabpanel" w in
            let w :=
              if decide (id_of w panel = EmptyString)
              then let '(n, w) := generateUniqueId w in
                   set_id panel ("tabsheet-panel-" +:+ pretty n) w
              else w in
            let w := setAttribute panel "aria-labelledby" (id_of w tabItem) w in
            setAttribute tabItem "aria-controls" (id_of w panel) w
        | None => w
        end) w items
  | _, _ => w
  end.

(** ** The property system

    [items] is a read-only property written through [_setItems], and the two
    methods above are declared in [static get observers()]. A write that
    stores the very same value runs nothing; any other write stores the value
    and runs the observers in the order of their declaration, each on the
    current values of its properties. *)

Definition same_array (a b : option Arr) : bool :=
  match a, b with
  | None, None => true
  | Some a, Some b => bool_decide (arr_loc a = arr_loc b)
  | _, _ => false
  end.

Definition run_observers (w : State) : State :=
  let w := __itemsOrPanelsChanged (arr_elems <$> items w) (arr_elems <$> __panels w) w in
  __selectedTabItemChanged (selected w) (arr_elems <$> items w) (arr_elems <$> __panels w) w.

Definition _setItems (v : option Arr) (w : State) : State :=
  if same_array (items w) v then w else run_observers (set_items v w).

(** ** The controller of the [tabs] slot *)

(** [__tabsItemsChangedListener()]: [this.host._setItems(this.tabs.items)].
    Reading [items] off a [this.tabs] that is [null] raises a TypeError. *)
Definition __tabsItemsChangedListener (w : State) : outcome :=
  match controller_tabs w with
  | None => Throw (TypeError "Cannot read properties of null (reading 'items')")
  | Some tabs =>
      Done (_setItems (t ← vaadin_tabs w tabs; tabs_items t) w)
  end.

Definition listen (t : Tabs) : Tabs :=
  mkTabs (tabs_items t) (tabs_selected t) true true.

Definition initCustomNode_message : string :=
  "The " +:+ dquote +:+ "tabs" +:+ dquote
  +:+ " slot of a <vaadin-tabsheet> must only contain a <vaadin-tabs> element!".

(** [initCustomNode(tabs)]: called by the slot controller for the node found
    in the [tabs] slot. The host records the node as its [stateTarget]; what
    the delegation mixin forwards to a new state target (the [theme]
    attribute and the [selected] property) is the business of that mixin. *)
Definition initCustomNode (tabs : ref) (w : State) : outcome :=
  match vaadin_tabs w tabs with
  | None => Throw (Error initCustomNode_message)
  | Some _ =>
      let w := set_controller_tabs (Some tabs) w in
      let w := set_elements (alter (with_vaadin_tabs listen) tabs) w in
      let w := set___tabs (Some tabs) w in
      let w := set_stateTarget (Some tabs) w in
      __tabsItemsChangedListener w
  end.

(** ** Vocabulary of the specification *)

(** [p] is the first panel, in the order of the array, whose [tab] attribute
    is [tabId]. *)
Definition first_panel_for (w : State) (panels : list ref) (tabId : string) (p : ref) : Prop :=
  ∃ i, panels !! i = Some p ∧ getAttribute w p "tab" = Some tabId ∧
       ∀ j q, j < i → panels !! j = Some q → getAttribute w q "tab" ≠ Some tabId.

(** Every entry of the array is an element of the document. *)
Definition all_elements (w : State) (l : list ref) : Prop :=
  Forall (λ r, is_Some (elements w !! r)) l.

(** The outcome the specification calls the loading state: the host carries
    the [loading] attribute and every panel is hidden. *)
Definition resolves_as_loading (w : State) (panels : list ref) : Prop :=
  loading w = true ∧ ∀ p, p ∈ panels → hidden w p = true.

(** [w'] has the registration of [w]: the same items, the same slotted tabs
    element, and the same [<vaadin-tabs>] state on every element. *)
Definition keeps_registration (w w' : State) : Prop :=
  items w' = items w ∧ __tabs w' = __tabs w ∧ stateTarget w' = stateTarget w ∧
  controller_tabs w' = controller_tabs w ∧
  ∀ r, vaadin_tabs w' r = vaadin_tabs w r.

(** ** A small document

    Two tabs [t1] and [t2] (elements 1 and 2), a [<vaadin-tabs>] (element 3)
    that lists them, a [<div>] (element 4), and four panels: element 5 is
    [tab="t1"], elements 6 and 7 both are [tab="t2"], and element 8 carries
    an empty [tab] attribute. All panels start visible. *)
Definition tab_element (id : string) : Element :=
  mkElement id None false ∅ None.
Definition panel_element (tab : string) : Element :=
  mkElement EmptyString None false {[ "tab" := tab ]} None.
Definition tabs_element (items : Arr) : Element :=
  mkElement EmptyString None false ∅ (Some (mkTabs (Some items) (Number 0) false false)).

Definition sample_items : Arr := mkArr 1 [1; 2]%positive.

Definition sample : State :=
  mkState
    (list_to_map
       [(1, tab_element "t1"); (2, tab_element "t2");
        (3, tabs_element sample_items); (4, tab_element EmptyString);
        (5, panel_element "t1"); (6, panel_element "t2");
        (7, panel_element "t2"); (8, panel_element EmptyString)]%positive)
    None (Number 0) None (Some (mkArr 2 [5; 6; 7]%positive)) None
    false EmptyString 120 None 0.

End TabSheet.

(* ===================================================================== *)
(** * The checkbox group *)
(* ===================================================================== *)
Module CheckboxGroup.

(** References to DOM nodes, and to array objects. *)
Abbreviation ref := positive.
Abbreviation loc := positive.

(** What the [value] property can hold: the observer's signature admits
    [null] and [undefined] next to the array the property is declared with.
    An array is known by its reference. *)
Inductive jsvalue :=
  | Undefined
  | Null
  | Array (l : loc).

Global Instance jsvalue_eq_dec : EqDecision jsvalue.
Proof. solve_decision. Defined.

(** A [<vaadin-checkbox>] as the group sees it. *)
Record Checkbox := mkCheckbox {
  cb_value : string;                (* checkbox.value *)
  cb_has_value_attribute : bool;    (* checkbox.hasAttribute('value') *)
  cb_checked : bool;                (* checkbox.checked *)
  cb_disabled : bool;               (* checkbox.disabled *)
  cb_listening : bool;              (* the group listens to 'checked-changed' *)
}.

(** What an outside observer can see happen. *)
Inductive event :=
  | ValueChanged (v : jsvalue)      (* the 'value-changed' notification *)
  | Validated (valid : bool)        (* the 'validated' event *)
  | ConsoleWarn (msg : string)      (* console.warn(msg) *)
  | Reported (e : js_error).        (* an exception a listener let escape *)

(** The group, the nodes around it and the array objects. [checkboxes] holds
    the nodes that are instances of [Checkbox]; every other node is a
    reference outside of this map. *)
Record State := mkState {
  checkboxes : gmap ref Checkbox;
  arrays : gmap loc (list string);
  children : list ref;              (* this.children *)
  value : jsvalue;                  (* this.value *)
  required : bool;                  (* this.required *)
  disabled : bool;                  (* this.disabled *)
  invalid : bool;                   (* this.invalid *)
  has_value : bool;                 (* the host's [has-value] attribute *)
  log : list event;
}.

(** ** Computations: state, exceptions, and fuel for the re-entrant setter *)

Inductive result (A : Type) :=
  | Ok (a : A) (w : State)
  | Exn (e : js_error) (w : State)
  | OutOfFuel.
Arguments Ok {A} a w.
Arguments Exn {A} e w.
Arguments OutOfFuel {A}.

Definition M (A : Type) : Type := State → result A.

Definition ret {A} (a : A) : M A := λ w, Ok a w.

Definition bind {A B} (m : M A) (k : A → M B) : M B := λ w,
  match m w with
  | Ok a w' => k a w'
  | Exn e w' => Exn e w'
  | OutOfFuel => OutOfFuel
  end.

Notation "'let*' x := m 'in' k" := (bind m (λ x, k))
  (at level 10, x name, m at level 100, k at level 200).
Notation "m ;; k" := (bind m (λ _, k))
  (at level 100, k at level 200, right associativity).

Definition throw {A} (e : js_error) : M A := λ w, Exn e w.
Definition get {A} (f : State → A) : M A := λ w, Ok (f w) w.
Definition modify (f : State → State) : M unit := λ w, Ok () (f w).

(** [xs.forEach(f)]. *)
Fixpoint forEach {A} (xs : list A) (f : A → M unit) : M unit :=
  match xs with
  | [] => ret ()
  | x :: xs => f x;; forEach xs f
  end.

(** ** Field updates *)

Definition set_checkboxes (f : gmap ref Checkbox → gmap ref Checkbox) (w : State) : State :=
  mkState (f (checkboxes w)) (arrays w) (children w) (value w) (required w)
    (disabled w) (invalid w) (has_value w) (log w).
Definition set_arrays (f : gmap loc (list string) → gmap loc (list string)) (w : State) : State :=
  mkState (checkboxes w) (f (arrays w)) (children w) (value w) (required w)
    (disabled w) (invalid w) (has_value w) (log w).
Definition set_value (v : jsvalue) (w : State) : State :=
  mkState (checkboxes w) (arrays w) (children w) v (required w)
    (disabled w) (invalid w) (has_value w) (log w).
Definition set_invalid (b : bool) (w : State) : State :=
  mkState (checkboxes w) (arrays w) (children w) (value w) (required w)
    (disabled w) b (has_value w) (log w).
Definition set_has_value (b : bool) (w : State) : State :=
  mkState (checkboxes w) (arrays w) (children w) (value w) (required w)
    (disabled w) (invalid w) b (log w).
Definition emit (e : event) (w : State) : State :=
  mkState (checkboxes w) (arrays w) (children w) (value w) (required w)
    (disabled w) (invalid w) (has_value w) (log w ++ [e]).

Definition with_checked (b : bool) (c : Checkbox) : Checkbox :=
  mkCheckbox (cb_value c) (cb_has_value_attribute c) b (cb_disabled c) (cb_listening c).
Definition with_disabled (b : bool) (c : Checkbox) : Checkbox :=
  mkCheckbox (cb_value c) (cb_has_value_attribute c) (cb_checked c) b (cb_listening c).
Definition with_listening (b : bool) (c : Checkbox) : Checkbox :=
  mkCheckbox (cb_value c) (cb_has_value_attribute c) (cb_checked c) (cb_disabled c) b.

(** ** Arrays *)

Definition reading (what prop : string) : js_error :=
  TypeError ("Cannot read properties of " +:+ what +:+ " (reading '" +:+ prop +:+ "')").

(** The elements of the array behind [v], on the way to reading its property
    [prop]; [null] and [undefined] have no properties. *)
Definition elements_of (v : jsvalue) (prop : string) : M (list string) :=
  match v with
  | Array l => get (λ w, default [] (arrays w !! l))
  | Null => throw (reading "null" prop)
  | Undefined => throw (reading "undefined" prop)
  end.

(** [v.length] and [v.includes(x)]. *)
Definition length_of (v : jsvalue) : M nat :=
  let* xs := elements_of v "length" in ret (length xs).
Definition includes (v : jsvalue) (x : string) : M bool :=
  let* xs := elements_of v "includes" in ret (bool_decide (x ∈ xs)).

(** An array literal or the result of [filter]: a new array object. *)
Definition new_array (xs : list string) : M jsvalue := λ w,
  let l := fresh (dom (arrays w)) in
  Ok (Array l) (set_arrays <[l:=xs]> w).

(** ** The checkbox element *)

Definition addEventListener (r : ref) : M unit :=
  modify (set_checkboxes (alter (with_listening true) r)).
Definition removeEventListener (r : ref) : M unit :=
  modify (set_checkboxes (alter (with_listening false) r)).

(** [checkbox.checked], [checkbox.value]: a node that is no checkbox has
    neither property, so the first is falsy; [__filterCheckboxes] keeps such
    nodes away from every reader below. *)
Definition checked_of (r : ref) : M bool :=
  get (λ w, default false (cb_checked <$> checkboxes w !! r)).
Definition value_of (r : ref) : M string :=
  get (λ w, default EmptyString (cb_value <$> checkboxes w !! r)).

(** An event listener that throws does not unwind the code that dispatched
    the event: the exception is reported and dispatch returns. *)
Definition dispatch (listener : M unit) : M unit := λ w,
  match listener w with
  | Exn e w' => Ok () (emit (Reported e) w')
  | r => r
  end.

(** Modelled from the spec: the setter of the checkbox's [checked] property
    lives in the checkbox package, not in the files verified here. The
    specification has the child announce a change of its own checked state to
    the listener attached at registration, and has a write of the value it
    already holds announce nothing. *)
Definition set_checked (listener : ref → M unit) (r : ref) (b : bool) : M unit := λ w,
  match checkboxes w !! r with
  | Some c =>
      if decide (cb_checked c = b) then Ok () w
      else
        let w := set_checkboxes <[r:=with_checked b c]> w in
        if cb_listening c then dispatch (listener r) w else Ok () w
  | None => Ok () w
  end.

(** ** The methods of the group

    [this.value = v] re-enters the group through the observer of [value], and
    the observer re-enters the group through the listener of every checkbox
    it flips. The methods are written over [assign], the meaning of
    [this.value = v]; [assign_value] below ties the knot. *)
Section Methods.

Variable assign : jsvalue → M unit.

(** [checkValidity()]: [!this.required || this.value.length > 0]. *)
Definition checkValidity : M bool :=
  let* req := get required in
  if negb req then ret true
  else
    let* v := get value in
    let* n := length_of v in
    ret (bool_decide (0 < n)).

(** Modelled from the spec: [validate()] is inherited from the field base,
    which is not among the files verified here. A constraint violation is
    "surfaced via the standard validity/validation API": the group takes the
    [invalid] state that [checkValidity()] dictates and announces that it
    has been validated. *)
Definition validate : M unit :=
  let* isValid := checkValidity in
  modify (set_invalid (negb isValid));;
  modify (emit (Validated isValid)).

(** [__filterCheckboxes(nodes)]. *)
Definition __filterCheckboxes (nodes : list ref) : M (list ref) :=
  get (λ w, filter (λ child, is_Some (checkboxes w !! child)) nodes).

(** [get __checkboxes()]. *)
Definition __checkboxes : M (list ref) :=
  let* children := get children in
  __filterCheckboxes children.

(** The callback of [checkboxes.some(...)] in
    [__warnOfCheckboxesWithoutValue]. *)
Definition without_value (c : Checkbox) : bool :=
  negb (cb_has_value_attribute c)
  && (bool_decide (cb_value c = EmptyString) || bool_decide (cb_value c = "on")).

Definition warning : string :=
  "Please provide the value attribute to all the checkboxes inside the checkbox group.".

(** [__warnOfCheckboxesWithoutValue(checkboxes)]. *)
Definition __warnOfCheckboxesWithoutValue (cbs : list ref) : M unit :=
  let* hasCheckboxesWithoutValue :=
    get (λ w, existsb (λ r, default false (without_value <$> checkboxes w !! r)) cbs) in
  if hasCheckboxesWithoutValue then modify (emit (ConsoleWarn warning)) else ret ().

(** [__addCheckboxToValue(value)]. *)
Definition __addCheckboxToValue (x : string) : M unit :=
  let* v := get value in
  let* present := includes v x in
  if negb present then
    let* v := get value in
    let* xs := elements_of v "Symbol.iterator" in
    let* v' := new_array (xs ++ [x]) in
    assign v'
  else ret ().

(** [__removeCheckboxFromValue(value)]. *)
Definition __removeCheckboxFromValue (x : string) : M unit :=
  let* v := get value in
  let* present := includes v x in
  if present then
    let* v := get value in
    let* xs := elements_of v "filter" in
    let* v' := new_array (filter (λ y, y ≠ x) xs) in
    assign v'
  else ret ().

(** [__onCheckboxCheckedChanged(event)], with [event.target] for argument. *)
Definition __onCheckboxCheckedChanged (checkbox : ref) : M unit :=
  let* checked := checked_of checkbox in
  if checked then
    let* x := value_of checkbox in __addCheckboxToValue x
  else
    let* x := value_of checkbox in __removeCheckboxFromValue x.

(** [__registerCheckbox(checkbox)]. *)
Definition __registerCheckbox (checkbox : ref) : M unit :=
  addEventListener checkbox;;
  let* disabled := get disabled in
  (if disabled
   then modify (set_checkboxes (alter (with_disabled true) checkbox))
   else ret ());;
  let* checked := checked_of checkbox in
  if checked then
    let* x := value_of checkbox in __addCheckboxToValue x
  else
    let* v := get value in
    let* x := value_of checkbox in
    let* present := includes v x in
    if present then set_checked __onCheckboxCheckedChanged checkbox true
    else ret ().

(** [__unregisterCheckbox(checkbox)]. *)
Definition __unregisterCheckbox (checkbox : ref) : M unit :=
  removeEventListener checkbox;;
  let* checked := checked_of checkbox in
  if checked then
    let* x := value_of checkbox in __removeCheckboxFromValue x
  else ret ().

(** [__valueChanged(value, oldValue)], the observer of [value]. *)
Definition __valueChanged (value oldValue : jsvalue) : M unit :=
  let* n := length_of value in
  (* Setting initial value to empty array, skip validation *)
  if bool_decide (n = 0) && bool_decide (oldValue = Undefined) then ret ()
  else
    let* n := length_of value in
    modify (set_has_value (bool_decide (0 < n)));;
    let* cbs := __checkboxes in
    forEach cbs (λ checkbox,
      let* x := value_of checkbox in
      let* present := includes value x in
      set_checked __onCheckboxCheckedChanged checkbox present);;
    if bool_decide (oldValue ≠ Undefined) then validate else ret ().

(** The callback given to the slot observer in [ready()]. Handing the input
    elements to the tooltip controller, which happens between the two last
    steps, concerns neither the selection nor the checkboxes. *)
Definition slot_changed (addedNodes removedNodes : list ref) : M unit :=
  let* addedCheckboxes := __filterCheckboxes addedNodes in
  let* removedCheckboxes := __filterCheckboxes removedNodes in
  forEach addedCheckboxes __registerCheckbox;;
  forEach removedCheckboxes __unregisterCheckbox;;
  __warnOfCheckboxesWithoutValue addedCheckboxes.

End Methods.

(** [this.value = v]. The property is declared with [observer:
    '__valueChanged'] and [notify: true]: a write of the value it already
    holds does nothing; any other write stores the value, runs the observer on
    the new and the old value, and then fires [value-changed]. Every level of
    re-entrance takes one unit of fuel. *)
Fixpoint assign_value (fuel : nat) (v : jsvalue) : M unit :=
  match fuel with
  | 0 => λ _, OutOfFuel
  | S fuel => λ w,
      let oldValue := value w in
      if decide (oldValue = v) then Ok () w
      else
        (modify (set_value v);;
         __valueChanged (assign_value fuel) v oldValue;;
         modify (emit (ValueChanged v))) w
  end.

(** ** Vocabulary of the specification *)

(** The contents of the array behind [this.value], when it holds one. *)
Definition selection (w : State) : option (list string) :=
  match value w with
  | Array l => arrays w !! l
  | _ => None
  end.

(** A checkbox whose [checked] flag tells whether its value is selected. *)
Definition synced (xs : list string) (c : Checkbox) : Checkbox :=
  with_checked (bool_decide (cb_value c ∈ xs)) c.

Definition sync (xs : list string) (cbs : list ref)
    (m : gmap ref Checkbox) : gmap ref Checkbox :=
  foldl (λ m r, alter (synced xs) r m) m cbs.

(** [!required || length > 0] on plain data. *)
Definition valid (req : bool) (xs : list string) : bool :=
  negb req || bool_decide (0 < length xs).

(** The state the observer of [value] leaves when the new value is an array
    with elements [xs]: the theorems below show that the re-entrant calls of
    the observer change nothing on top of this. *)
Definition after_value_changed (xs : list string) (oldValue : jsvalue) (w : State) : State :=
  if bool_decide (length xs = 0) && bool_decide (oldValue = Undefined) then w
  else
    let cbs := filter (λ child, is_Some (checkboxes w !! child)) (children w) in
    let w := set_checkboxes (sync xs cbs) (set_has_value (bool_decide (0 < length xs)) w) in
    if bool_decide (oldValue ≠ Undefined)
    then emit (Validated (valid (required w) xs))
           (set_invalid (negb (valid (required w) xs)) w)
    else w.

(** The state after [this.value = xs'] for a newly made array [xs']. *)
Definition replaced (xs' : list string) (w : State) : State :=
  let l' := fresh (dom (arrays w)) in
  emit (ValueChanged (Array l'))
    (after_value_changed xs' (value w)
       (set_value (Array l') (set_arrays <[l':=xs']> w))).

(** The state after the two first statements of [__registerCheckbox]: the
    listener is attached, and a disabled group has disabled the checkbox. *)
Definition attached (r : ref) (w : State) : State :=
  let w1 := set_checkboxes (alter (with_listening true) r) w in
  if disabled w1 then set_checkboxes (alter (with_disabled true) r) w1 else w1.

(** The state after the first statement of [__unregisterCheckbox]. *)
Definition detached (r : ref) (w : State) : State :=
  set_checkboxes (alter (with_listening false) r) w.

(** What makes a checkbox the one it is, and whether the group listens. *)
Definition identity_of (w : State) (r : ref) : option (string * bool) :=
  (λ c, (cb_value c, cb_has_value_attribute c)) <$> checkboxes w !! r.
Definition listening_of (w : State) (r : ref) : option bool :=
  cb_listening <$> checkboxes w !! r.

(** [w'] is a state the group reaches from [w] by registering or
    unregistering the checkboxes [rs]: the nodes remain what they are, only
    the checkboxes [rs] gain or lose the listener, the group holds an array,
    and nothing has been written to the console. *)
Definition steps (rs : list ref) (w w' : State) : Prop :=
  (∀ r, identity_of w' r = identity_of w r) ∧
  (∀ r, r ∉ rs → listening_of w' r = listening_of w r) ∧
  is_Some (selection w') ∧
  ∃ evs, log w' = log w ++ evs ∧ ConsoleWarn warning ∉ evs.

(** [w'] differs from [w] in that the group holds a newly made array with
    elements [xs']: no array that existed has changed, and one
    [value-changed] notification has been fired, after a validation. *)
Definition replaces_array (w w' : State) (xs' : list string) : Prop :=
  ∃ l', value w' = Array l' ∧ arrays w !! l' = None ∧
        arrays w' !! l' = Some xs' ∧
        (∀ l ys, arrays w !! l = Some ys → arrays w' !! l = Some ys) ∧
        ∃ isValid, log w' = log w ++ [Validated isValid; ValueChanged (Array l')].

(** ** A small group

    Three checkboxes are children of the group: [a] (element 1) is unchecked
    and already registered, [b] (element 2) is checked with a [value]
    attribute, and element 3 is unchecked with neither a [value] attribute
    nor a value of its own. Element 4 is checked, lacks the attribute and was
    given the value [c] by script. Element 9 is a child that is no checkbox.
    The group is required and its value is the array [["a"]]. *)
Definition sample : State :=
  mkState
    (list_to_map
       [(1, mkCheckbox "a" true false false true);
        (2, mkCheckbox "b" true true false false);
        (3, mkCheckbox "on" false false false false);
        (4, mkCheckbox "c" false true false false)]%positive)
    {[ 1%positive := ["a"] ]}
    [1; 2; 3; 4; 9]%positive
    (Array 1) true false false true [].

(** The same group once [a] and [b] are registered and checked: it holds a
    second array, [["a"; "b"]], and the first array is still around. *)
Definition sample_ab : State :=
  mkState
    (list_to_map
       [(1, mkCheckbox "a" true true false true);
        (2, mkCheckbox "b" true true false true);
        (3, mkCheckbox "on" false false false false);
        (4, mkCheckbox "c" false false false false)]%positive)
    {[ 1%positive := ["a"]; 2%positive := ["a"; "b"] ]}
    [1; 2; 3; 4; 9]%positive
    (Array 2) true false false true [].

(** A required group with an empty selection and one registered checkbox
    [v1] (element 1): the scenario of the specification. *)
Definition scenario : State :=
  mkState {[ 1%positive := mkCheckbox "v1" true false false true ]}
    {[ 1%positive := [] ]} [1%positive] (Array 1) true false false false [].

(** The user toggles a checkbox: its [checked] changes and the group's
    listener hears of it. *)
Definition toggle (fuel : nat) (r : ref) (b : bool) : M unit :=
  set_checked (__onCheckboxCheckedChanged (assign_value fuel)) r b.

End CheckboxGroup.

(* ===================================================================== *)
(** * Properties of the tab sheet *)
(* ===================================================================== *)
Module TabSheetSpec.
Import TabSheet.

Section Visibility.

Implicit Types (w : State) (items panels : list ref) (p r : ref).

(** The loop that closes [__selectedTabItemChanged], as a function of the
    panel it leaves visible. *)
Local Abbreviation hide_all sel := (foldl (λ w p, set_hidden p (bool_decide (Some p ≠ sel)) w)).

Lemma hide_all_elements sel panels w r :
  elements (hide_all sel w panels) !! r =
    if decide (r ∈ panels)
    then with_hidden (bool_decide (Some r ≠ sel)) <$> elements w !! r
    else elements w !! r.
Proof.
  revert w. induction panels as [|p panels IH]; intros w.
  { rewrite decide_False by set_solver. done. }
  cbn [foldl]. rewrite IH. unfold set_hidden, set_elements; cbn [elements].
  rewrite lookup_alter.
  destruct (decide (p = r)) as [->|Hne].
  - rewrite (decide_True (P := r ∈ r :: panels)) by set_solver.
    destruct (decide (r ∈ panels)); [|done].
    by destruct (elements w !! r).
  - destruct (decide (r ∈ panels)).
    + by rewrite decide_True by (apply elem_of_cons; by right).
    + rewrite decide_False; [done|]. by intros [?|?]%elem_of_cons.
Qed.

Lemma hide_all_frame sel panels w :
  let w' := hide_all sel w panels in
  loading w' = loading w ∧ content_minHeight w' = content_minHeight w ∧
  items w' = items w ∧ __panels w' = __panels w ∧ selected w' = selected w ∧
  __tabs w' = __tabs w ∧ stateTarget w' = stateTarget w ∧
  controller_tabs w' = controller_tabs w ∧ uniqueId w' = uniqueId w ∧
  content_offsetHeight w' = content_offsetHeight w.
Proof.
  revert w. induction panels as [|p panels IH]; intros w; simpl; [done|].
  apply (IH (set_hidden p _ w)).
Qed.

Lemma find_panel_Some w panels tabId p :
  find_panel w panels tabId = Some p ↔ first_panel_for w panels tabId p.
Proof.
  unfold find_panel, first_panel_for. split.
  - destruct (list_find _ panels) as [[i q]|] eqn:Hfind; [|done].
    intros [= ->]. apply list_find_Some in Hfind as (Hi & Hp & Hleast).
    exists i. split_and!; [done..|]. intros j q Hj Hq. by apply (Hleast j).
  - intros (i & Hi & Hp & Hleast).
    assert (list_find (λ q, getAttribute w q "tab" = Some tabId) panels = Some (i, p)) as ->;
      [|done].
    apply list_find_Some. split_and!; [done..|].
    intros j q Hq Hj. by apply (Hleast j).
Qed.

Lemma find_panel_None w panels tabId :
  find_panel w panels tabId = None ↔
  ∀ p, p ∈ panels → getAttribute w p "tab" ≠ Some tabId.
Proof.
  unfold find_panel. rewrite fmap_None, list_find_None, Forall_forall. done.
Qed.

Lemma find_panel_is_Some w panels tabId :
  (∃ p, p ∈ panels ∧ getAttribute w p "tab" = Some tabId) →
  is_Some (find_panel w panels tabId).
Proof.
  intros (p & Hin & Hp).
  destruct (find_panel w panels tabId) eqn:Hfind; [by eexists|].
  rewrite find_panel_None in Hfind. by destruct (Hfind p Hin).
Qed.

(** What one pass of the reconciler leaves behind. *)
Lemma pass_elements z items panels w r :
  let sel := find_panel w panels (selectedTabId w items (Number z)) in
  elements (__selectedTabItemChanged (Number z) (Some items) (Some panels) w) !! r =
    if decide (r ∈ panels)
    then with_hidden (bool_decide (Some r ≠ sel)) <$> elements w !! r
    else elements w !! r.
Proof.
  intros sel. unfold __selectedTabItemChanged. fold sel.
  rewrite hide_all_elements.
  destruct sel; [done|]. by destruct (hasOneVisiblePanel _ _).
Qed.

Lemma pass_hidden z items panels w p :
  p ∈ panels → is_Some (elements w !! p) →
  hidden (__selectedTabItemChanged (Number z) (Some items) (Some panels) w) p =
    bool_decide (Some p ≠ find_panel w panels (selectedTabId w items (Number z))).
Proof.
  intros Hin [e He]. unfold hidden.
  rewrite pass_elements, decide_True by done. by rewrite He.
Qed.

Lemma pass_loading z items panels w :
  loading (__selectedTabItemChanged (Number z) (Some items) (Some panels) w) =
    bool_decide (find_panel w panels (selectedTabId w items (Number z)) = None).
Proof.
  unfold __selectedTabItemChanged.
  match goal with |- loading (foldl _ ?w0 _) = _ =>
    destruct (hide_all_frame (find_panel w panels (selectedTabId w items (Number z))) panels w0)
      as (-> & _) end.
  destruct (find_panel _ _ _); [done|]. by destruct (hasOneVisiblePanel _ _).
Qed.

Lemma pass_minHeight z items panels w :
  content_minHeight (__selectedTabItemChanged (Number z) (Some items) (Some panels) w) =
    match find_panel w panels (selectedTabId w items (Number z)) with
    | Some _ => EmptyString
    | None =>
        if hasOneVisiblePanel w panels
        then pretty (content_offsetHeight w) +:+ "px"
        else content_minHeight w
    end.
Proof.
  unfold __selectedTabItemChanged.
  match goal with |- content_minHeight (foldl _ ?w0 _) = _ =>
    destruct (hide_all_frame (find_panel w panels (selectedTabId w items (Number z))) panels w0)
      as (_ & -> & _) end.
  destruct (find_panel _ _ _); [done|].
  change (hasOneVisiblePanel (set_loading _ w) panels) with (hasOneVisiblePanel w panels).
  by destruct (hasOneVisiblePanel _ _).
Qed.

(** C1. In a pass over arrays [items] and [panels] with a selected index [i]
    that is defined and in range, a panel ends up shown ([hidden = false])
    exactly when it is the first panel, in the order of the array, whose [tab]
    attribute is the id of the selected tab; every other panel ends up with
    [hidden = true]. Panels that share the [tab] value are no exception. *)
Theorem selected_panel_is_first_match w items panels i tab p :
  (0 ≤ i)%Z → items !! Z.to_nat i = Some tab →
  all_elements w panels → p ∈ panels →
  let w' := __selectedTabItemChanged (Number i) (Some items) (Some panels) w in
  (hidden w' p = false ↔ first_panel_for w panels (id_of w tab) p) ∧
  (¬ first_panel_for w panels (id_of w tab) p → hidden w' p = true).
Proof.
  intros Hi Htab Hall Hin w'. subst w'.
  unfold all_elements in Hall. rewrite Forall_forall in Hall.
  rewrite pass_hidden by auto.
  assert (selectedTabId w items (Number i) = id_of w tab) as ->.
  { unfold selectedTabId, index. by rewrite decide_True, Htab. }
  rewrite <- find_panel_Some.
  split.
  - rewrite bool_decide_eq_false. split.
    + intros Hnn. destruct (decide (find_panel w panels (id_of w tab) = Some p)); [done|].
      exfalso. apply Hnn. congruence.
    + intros -> Hne. by apply Hne.
  - intros Hne. apply bool_decide_eq_true. congruence.
Qed.

Lemma selected_panel_is_first_match_witness :
  let w' := __selectedTabItemChanged (Number 1) (Some [1; 2]%positive)
              (Some [5; 6; 7]%positive) sample in
  (hidden w' 7 = false ↔ first_panel_for sample [5; 6; 7]%positive (id_of sample 2) 7) ∧
  (¬ first_panel_for sample [5; 6; 7]%positive (id_of sample 2) 7 → hidden w' 7 = true).
Proof.
  apply (selected_panel_is_first_match sample [1; 2]%positive [5; 6; 7]%positive 1 2 7).
  - lia.
  - reflexivity.
  - unfold all_elements. compute_done.
  - compute_done.
Defined.

(** Tabs [t1], [t2]; panels [tab="t1"], [tab="t2"], [tab="t2"]: selecting
    index 1 shows the first of the two panels of [t2] and hides the rest. *)
Example duplicate_keys_first_wins :
  let w' := __selectedTabItemChanged (Number 1) (Some [1; 2]%positive)
              (Some [5; 6; 7]%positive) sample in
  hidden w' <$> [5; 6; 7]%positive = [true; false; true].
Proof. reflexivity. Qed.

(** C3. Whenever a pass runs and no panel's [tab] attribute is the identity
    of the selected tab, the host gets the [loading] attribute, and the
    minimum height of the content region becomes its rendered height when
    exactly one panel is visible at that moment and stays what it was
    otherwise. Whenever a pass finds a matching panel, from any state and so
    also after a loading pass, the [loading] attribute is removed and the
    minimum height is reset to the empty string. *)
Theorem loading_state_on_missing_panel w z items panels :
  let tabId := selectedTabId w items (Number z) in
  let visible := length (filter (λ p, hidden w p = false) panels) in
  let w' := __selectedTabItemChanged (Number z) (Some items) (Some panels) w in
  ((∀ p, p ∈ panels → getAttribute w p "tab" ≠ Some tabId) →
     loading w' = true ∧
     (visible = 1 →
        content_minHeight w' = pretty (content_offsetHeight w) +:+ "px") ∧
     (visible ≠ 1 → content_minHeight w' = content_minHeight w)) ∧
  ((∃ p, p ∈ panels ∧ getAttribute w p "tab" = Some tabId) →
     loading w' = false ∧ content_minHeight w' = EmptyString).
Proof.
  intros tabId visible w'. subst w'.
  rewrite pass_loading, pass_minHeight. fold tabId. split.
  - intros Hnone%find_panel_None. rewrite Hnone. split; [done|].
    unfold hasOneVisiblePanel. fold visible. split; intros Hvis.
    + by rewrite bool_decide_eq_true_2.
    + by rewrite bool_decide_eq_false_2.
  - intros [q Hq]%find_panel_is_Some. by rewrite Hq.
Qed.

Lemma loading_state_on_missing_panel_witness :
  let loaded := __selectedTabItemChanged (Number 5) (Some [1; 2]%positive)
                  (Some [5]%positive) sample in
  let restored := __selectedTabItemChanged (Number 0) (Some [1; 2]%positive)
                    (Some [5]%positive) loaded in
  (loading loaded = true ∧ content_minHeight loaded = "120px") ∧
  (loading restored = false ∧ content_minHeight restored = EmptyString).
Proof.
  intros loaded restored. split.
  - destruct (loading_state_on_missing_panel sample 5 [1; 2]%positive [5]%positive)
      as [Hmissing _].
    destruct Hmissing as (Hloading & Hpinned & _).
    { intros p ->%list_elem_of_singleton. by vm_compute. }
    split; [exact Hloading | apply Hpinned; reflexivity].
  - destruct (loading_state_on_missing_panel loaded 0 [1; 2]%positive [5]%positive)
      as [_ Hfound].
    apply Hfound. exists 5%positive. split; [compute_done | reflexivity].
Defined.

(** Without exactly one visible panel the minimum height is left alone: all
    three panels of the sample are visible. *)
Example unpinned_with_three_visible_panels :
  let w' := __selectedTabItemChanged (Number 5) (Some [1; 2]%positive)
              (Some [5; 6; 7]%positive) sample in
  loading w' = true ∧ content_minHeight w' = EmptyString.
Proof. split; reflexivity. Qed.

(** C5, as the specification words it, fails twice. With [selected]
    undefined the pass returns at its guard: the host does not get the
    [loading] attribute and the panels stay visible. With an index out of
    range the identity looked for is the empty string, and a panel whose
    [tab] attribute is empty is shown as the selected panel. *)
Lemma unresolved_selection_counterexample :
  ¬ resolves_as_loading
      (__selectedTabItemChanged Undefined (Some [1; 2]%positive)
         (Some [5; 6; 7]%positive) sample)
      [5; 6; 7]%positive
  ∧
  ¬ resolves_as_loading
      (__selectedTabItemChanged (Number 2) (Some [1; 2]%positive)
         (Some [5; 8]%positive) sample)
      [5; 8]%positive.
Proof. split; intros [Hloading _]; vm_compute in Hloading; discriminate. Qed.

(** C5, amended. A selection that resolves to no tab never makes the pass
    fail. When [selected] is undefined the pass changes nothing. When
    [selected] is a number that indexes no tab and no panel carries an empty
    [tab] attribute, the pass ends in the loading state: the host carries
    [loading] and every panel is hidden. *)
Theorem unresolved_selection w selected items panels :
  index items selected = None →
  all_elements w panels →
  let w' := __selectedTabItemChanged selected (Some items) (Some panels) w in
  (selected = Undefined → w' = w) ∧
  (selected ≠ Undefined →
   (∀ p, p ∈ panels → getAttribute w p "tab" ≠ Some EmptyString) →
   resolves_as_loading w' panels).
Proof.
  intros Hindex Hall w'. subst w'. split.
  - by intros ->.
  - destruct selected as [|z]; [done|]. intros _ Hnone.
    assert (find_panel w panels (selectedTabId w items (Number z)) = None) as Hfind.
    { apply find_panel_None. unfold selectedTabId. by rewrite Hindex. }
    split.
    + by rewrite pass_loading, Hfind.
    + intros p Hin. unfold all_elements in Hall. rewrite Forall_forall in Hall.
      rewrite pass_hidden, Hfind by auto. done.
Qed.

Lemma unresolved_selection_witness :
  let w1 := __selectedTabItemChanged Undefined (Some [1; 2]%positive)
              (Some [5; 6; 7]%positive) sample in
  let w2 := __selectedTabItemChanged (Number 2) (Some [1; 2]%positive)
              (Some [5; 6; 7]%positive) sample in
  w1 = sample ∧ resolves_as_loading w2 [5; 6; 7]%positive.
Proof.
  split.
  - apply (unresolved_selection sample Undefined [1; 2]%positive [5; 6; 7]%positive);
      [reflexivity | unfold all_elements; compute_done | reflexivity].
  - apply (unresolved_selection sample (Number 2) [1; 2]%positive [5; 6; 7]%positive);
      [reflexivity | unfold all_elements; compute_done | discriminate |].
    intros p Hp. vm_compute in Hp.
    repeat (apply elem_of_cons in Hp as [->|Hp]; [by vm_compute|]).
    by apply elem_of_nil in Hp.
Defined.

End Visibility.

Section Registration.

Implicit Types (w : State) (r : ref).

Lemma keeps_registration_refl w : keeps_registration w w.
Proof. by repeat split. Qed.

Lemma keeps_registration_trans w1 w2 w3 :
  keeps_registration w1 w2 → keeps_registration w2 w3 → keeps_registration w1 w3.
Proof.
  intros (? & ? & ? & ? & H12) (? & ? & ? & ? & H23).
  repeat split; congruence.
Qed.

(** Rewriting one element without touching its [<vaadin-tabs>] state. *)
Lemma keeps_registration_alter (f : Element → Element) r w :
  (∀ e, el_vaadin_tabs (f e) = el_vaadin_tabs e) →
  keeps_registration w (set_elements (alter f r) w).
Proof.
  intros Hf. repeat split. intros r'. unfold vaadin_tabs, set_elements; cbn [elements].
  rewrite lookup_alter. case_decide as Heq; [subst r'|done].
  destruct (elements w !! r); [apply Hf | done].
Qed.

Lemma keeps_registration_foldl {A} (f : State → A → State) (l : list A) w :
  (∀ w x, keeps_registration w (f w x)) → keeps_registration w (foldl f w l).
Proof.
  intros Hf. revert w. induction l as [|x l IH]; intros w; cbn [foldl].
  - apply keeps_registration_refl.
  - eapply keeps_registration_trans; [apply Hf | apply IH].
Qed.

(** Peels the outermost rewrite of an element off the state reached. *)
Local Ltac peel :=
  lazymatch goal with
  | |- keeps_registration _ (set_elements (alter _ _) _) =>
      eapply keeps_registration_trans;
      [|apply keeps_registration_alter; intros []; reflexivity]
  end.

Lemma __itemsOrPanelsChanged_keeps items panels w :
  keeps_registration w (__itemsOrPanelsChanged items panels w).
Proof.
  unfold __itemsOrPanelsChanged.
  destruct items as [items|], panels as [panels|];
    try apply keeps_registration_refl.
  apply keeps_registration_foldl. clear w. intros w tabItem.
  destruct (find_panel w panels (id_of w tabItem)) as [panel|];
    [|apply keeps_registration_refl].
  unfold setAttribute, set_role. cbv zeta. do 2 peel.
  case_decide.
  - unfold generateUniqueId, set_id. cbv beta iota zeta. peel.
    match goal with |- keeps_registration _ (set_uniqueId _ ?w0) =>
      apply (keeps_registration_trans _ w0); [|by repeat split] end.
    peel. apply keeps_registration_refl.
  - peel. apply keeps_registration_refl.
Qed.

Lemma __selectedTabItemChanged_keeps selected items panels w :
  keeps_registration w (__selectedTabItemChanged selected items panels w).
Proof.
  unfold __selectedTabItemChanged.
  destruct items as [items|], panels as [panels|], selected as [|z];
    try apply keeps_registration_refl.
  eapply keeps_registration_trans;
    [|apply keeps_registration_foldl; intros; unfold set_hidden; peel;
      apply keeps_registration_refl].
  destruct (find_panel _ _ _); [by repeat split|].
  destruct (hasOneVisiblePanel _ _); by repeat split.
Qed.

Lemma run_observers_keeps w : keeps_registration w (run_observers w).
Proof.
  unfold run_observers.
  eapply keeps_registration_trans;
    [apply __itemsOrPanelsChanged_keeps | apply __selectedTabItemChanged_keeps].
Qed.

Lemma same_array_refl v : same_array v v = true.
Proof. destruct v; [by apply bool_decide_eq_true | done]. Qed.

(** [_setItems] leaves the host with the array it was given and changes
    nothing else of the registration. *)
Lemma _setItems_spec v w :
  let w' := _setItems v w in
  __tabs w' = __tabs w ∧ stateTarget w' = stateTarget w ∧
  controller_tabs w' = controller_tabs w ∧
  (∀ r, vaadin_tabs w' r = vaadin_tabs w r) ∧
  same_array (items w') v = true.
Proof.
  unfold _setItems. destruct (same_array (items w) v) eqn:Hsame; [done|].
  destruct (run_observers_keeps (set_items v w)) as (-> & -> & -> & -> & Htabs).
  split_and!; try done. apply same_array_refl.
Qed.

(** C6. A node in the [tabs] slot that is not a [<vaadin-tabs>] makes
    [initCustomNode] throw an [Error] on the spot: nothing is registered and
    the node is not skipped. A node that is a [<vaadin-tabs>] is registered
    without an exception: the controller and the host hold it, the
    controller listens to it, and the host holds its array of items. *)
Theorem initCustomNode_checks_kind w node :
  (vaadin_tabs w node = None →
     initCustomNode node w = Throw (Error initCustomNode_message)) ∧
  (∀ t, vaadin_tabs w node = Some t →
     ∃ w', initCustomNode node w = Done w' ∧
           controller_tabs w' = Some node ∧ __tabs w' = Some node ∧
           stateTarget w' = Some node ∧
           vaadin_tabs w' node = Some (listen t) ∧
           same_array (items w') (tabs_items t) = true).
Proof.
  unfold initCustomNode. split; [by intros ->|]. intros t Ht. rewrite Ht.
  unfold __tabsItemsChangedListener. cbn [controller_tabs set_controller_tabs
    set_elements set___tabs set_stateTarget].
  eexists. split; [reflexivity|].
  match goal with |- context [_setItems ?v ?w0] =>
    assert (vaadin_tabs w0 node = Some (listen t)) as Hlisten;
    [|assert (v = tabs_items t) as -> by (by rewrite Hlisten);
      destruct (_setItems_spec (tabs_items t) w0) as (-> & -> & -> & -> & ->)]
  end.
  - unfold vaadin_tabs in *.
    unfold set_stateTarget, set___tabs, set_elements, set_controller_tabs.
    cbn [elements]. rewrite lookup_alter_eq.
    destruct (elements w !! node) as [e|]; [|done]. cbn in *. by rewrite Ht.
  - done.
Qed.

Lemma initCustomNode_checks_kind_witness :
  initCustomNode 4 sample = Throw (Error initCustomNode_message) ∧
  ∃ w', initCustomNode 3 sample = Done w' ∧
        controller_tabs w' = Some 3%positive ∧ __tabs w' = Some 3%positive ∧
        stateTarget w' = Some 3%positive ∧
        vaadin_tabs w' 3 = Some (mkTabs (Some sample_items) (Number 0) true true) ∧
        same_array (items w') (Some sample_items) = true.
Proof.
  split.
  - apply (proj1 (initCustomNode_checks_kind sample 4)). reflexivity.
  - apply (proj2 (initCustomNode_checks_kind sample 3)
             (mkTabs (Some sample_items) (Number 0) false false)).
    reflexivity.
Defined.

End Registration.

End TabSheetSpec.

(* ===================================================================== *)
(** * Properties of the checkbox group *)
(* ===================================================================== *)
Module CheckboxGroupSpec.
Import CheckboxGroup.

(** Runs the state and exception plumbing of a computation. *)
Ltac run :=
  unfold checked_of, value_of, length_of, includes, elements_of,
    addEventListener, removeEventListener;
  unfold bind, ret, get, modify, throw;
  cbn [value checkboxes arrays children required disabled invalid has_value log
       set_checkboxes set_arrays set_value set_invalid set_has_value emit].

(** One step of a computation. *)
Lemma bind_Ok {A B} (m : M A) (k : A → M B) w a w' :
  m w = Ok a w' → bind m k w = k a w'.
Proof. unfold bind. by intros ->. Qed.

Lemma bind_get {A B} (f : State → A) (k : A → M B) w :
  bind (get f) k w = k (f w) w.
Proof. reflexivity. Qed.

Lemma bind_modify {B} (f : State → State) (k : unit → M B) w :
  bind (modify f) k w = k () (f w).
Proof. reflexivity. Qed.

Lemma __checkboxes_result w :
  __checkboxes w =
    Ok (filter (λ child, is_Some (checkboxes w !! child)) (children w)) w.
Proof. reflexivity. Qed.

Lemma length_of_array w l xs :
  arrays w !! l = Some xs → length_of (Array l) w = Ok (length xs) w.
Proof. intros Hl. unfold length_of. run. by rewrite Hl. Qed.

Lemma includes_array w l xs x :
  arrays w !! l = Some xs → includes (Array l) x w = Ok (bool_decide (x ∈ xs)) w.
Proof. intros Hl. unfold includes. run. by rewrite Hl. Qed.

Lemma elements_of_array w l xs prop :
  arrays w !! l = Some xs → elements_of (Array l) prop w = Ok xs w.
Proof. intros Hl. unfold elements_of. run. by rewrite Hl. Qed.

Section Observer.

Implicit Types (w : State) (r : ref) (l : loc) (xs : list string) (x : string).
Variable assign : jsvalue → M unit.

Lemma set_checkboxes_id (f : gmap ref Checkbox → gmap ref Checkbox) w :
  f (checkboxes w) = checkboxes w → set_checkboxes f w = w.
Proof. intros Hf. destruct w. unfold set_checkboxes. cbn in *. by rewrite Hf. Qed.

Lemma synced_checked xs c :
  cb_checked c = bool_decide (cb_value c ∈ xs) → synced xs c = c.
Proof. destruct c. unfold synced, with_checked. cbn. by intros <-. Qed.

(** Adding a value that is selected, or removing one that is not, returns
    at once. *)
Lemma add_present w l xs x :
  value w = Array l → arrays w !! l = Some xs → x ∈ xs →
  __addCheckboxToValue assign x w = Ok () w.
Proof.
  intros Hv Hl Hx. unfold __addCheckboxToValue. run. rewrite Hv. run.
  rewrite Hl. cbn. by rewrite bool_decide_eq_true_2.
Qed.

Lemma remove_absent w l xs x :
  value w = Array l → arrays w !! l = Some xs → x ∉ xs →
  __removeCheckboxFromValue assign x w = Ok () w.
Proof.
  intros Hv Hl Hx. unfold __removeCheckboxFromValue. run. rewrite Hv. run.
  rewrite Hl. cbn. by rewrite bool_decide_eq_false_2.
Qed.

(** The observer writes to a checkbox the flag that the selection dictates.
    The listener this wakes up finds nothing to add and nothing to remove. *)
Lemma set_checked_synced w l xs r b :
  value w = Array l → arrays w !! l = Some xs →
  (∀ c, checkboxes w !! r = Some c → b = bool_decide (cb_value c ∈ xs)) →
  set_checked (__onCheckboxCheckedChanged assign) r b w =
    Ok () (set_checkboxes (alter (synced xs) r) w).
Proof.
  intros Hv Hl Hb. unfold set_checked.
  destruct (checkboxes w !! r) as [c|] eqn:Hc.
  - specialize (Hb c eq_refl).
    destruct (decide (cb_checked c = b)) as [Hsame|Hsame].
    + rewrite set_checkboxes_id; [done|]. apply alter_id.
      intros c' Hc'. rewrite Hc in Hc'. injection Hc' as <-.
      apply synced_checked. by rewrite Hsame.
    + assert (set_checkboxes (alter (synced xs) r) w =
              set_checkboxes <[r:=with_checked b c]> w) as ->.
      { unfold set_checkboxes. rewrite (alter_alt_Some _ _ _ c) by done.
        unfold synced. by rewrite <- Hb. }
      destruct (cb_listening c); [|done].
      unfold dispatch, __onCheckboxCheckedChanged. run.
      rewrite lookup_insert_eq.
      cbn [fmap option_fmap option_map default with_checked cb_checked id].
      destruct b; cbv beta iota; run; rewrite lookup_insert_eq;
        cbn [fmap option_fmap option_map default with_checked cb_value id].
      * erewrite add_present; [done..|]. symmetry in Hb.
        by apply bool_decide_eq_true in Hb.
      * erewrite remove_absent; [done..|]. symmetry in Hb.
        by apply bool_decide_eq_false in Hb.
  - rewrite set_checkboxes_id; [done|]. by apply alter_id'.
Qed.

(** The loop of the observer over the checkboxes: nothing but their
    [checked] flags changes, and each flag becomes what the selection says. *)
Lemma sync_loop w l xs cbs :
  value w = Array l → arrays w !! l = Some xs →
  forEach cbs (λ checkbox,
    let* x := value_of checkbox in
    let* present := includes (Array l) x in
    set_checked (__onCheckboxCheckedChanged assign) checkbox present) w =
  Ok () (set_checkboxes (sync xs cbs) w).
Proof.
  revert w. induction cbs as [|r cbs IH]; intros w Hv Hl.
  { by rewrite set_checkboxes_id. }
  cbn [forEach]. unfold bind at 1. run. rewrite Hl.
  cbn [default].
  erewrite set_checked_synced; [|done..|].
  - rewrite IH by done. reflexivity.
  - intros c ->. reflexivity.
Qed.

Lemma checkValidity_array w l xs :
  value w = Array l → arrays w !! l = Some xs →
  checkValidity w = Ok (valid (required w) xs) w.
Proof.
  intros Hv Hl. unfold checkValidity, valid. run.
  destruct (required w); [|done]. cbn [negb orb]. run.
  by rewrite Hv, Hl.
Qed.

Lemma validate_array w l xs :
  value w = Array l → arrays w !! l = Some xs →
  validate w =
    Ok () (emit (Validated (valid (required w) xs))
             (set_invalid (negb (valid (required w) xs)) w)).
Proof.
  intros Hv Hl. unfold validate. unfold bind at 1.
  by erewrite checkValidity_array.
Qed.

(** The observer, run on an array: what it does, re-entrance included. *)
Lemma __valueChanged_array w l xs oldValue :
  value w = Array l → arrays w !! l = Some xs →
  __valueChanged assign (Array l) oldValue w = Ok () (after_value_changed xs oldValue w).
Proof.
  intros Hv Hl. unfold __valueChanged, after_value_changed.
  rewrite (bind_Ok _ _ _ _ _ (length_of_array w l xs Hl)).
  destruct (bool_decide (length xs = 0) && bool_decide (oldValue = Undefined)); [done|].
  rewrite (bind_Ok _ _ _ _ _ (length_of_array w l xs Hl)).
  rewrite bind_modify. cbv beta.
  rewrite (bind_Ok _ _ _ _ _ (__checkboxes_result _)).
  erewrite bind_Ok; [|by apply (sync_loop _ l xs)].
  destruct (bool_decide (oldValue ≠ Undefined)); [|done].
  by erewrite validate_array.
Qed.

End Observer.

Section Mutators.

Implicit Types (w : State) (r : ref) (l : loc) (xs : list string) (x : string).

(** [this.value = v] for an array [v] other than the one held. *)
Lemma assign_value_array fuel w l' xs' :
  value w ≠ Array l' → arrays w !! l' = Some xs' →
  assign_value (S fuel) (Array l') w =
    Ok () (emit (ValueChanged (Array l'))
             (after_value_changed xs' (value w) (set_value (Array l') w))).
Proof.
  intros Hne Hl'. cbn [assign_value]. rewrite decide_False by done.
  rewrite bind_modify. cbv beta.
  erewrite bind_Ok; [|by apply (__valueChanged_array _ _ l' xs')].
  reflexivity.
Qed.

(** A held array is never the next array to be made. *)
Lemma held_not_fresh w l xs :
  value w = Array l → arrays w !! l = Some xs →
  value w ≠ Array (fresh (dom (arrays w))).
Proof.
  intros Hv Hl Heq. rewrite Hv in Heq. injection Heq as ->.
  apply (is_fresh (dom (arrays w))). apply elem_of_dom. by eexists.
Qed.

Lemma assign_new_array fuel w l xs xs' :
  value w = Array l → arrays w !! l = Some xs →
  (let* v' := new_array xs' in assign_value (S fuel) v') w = Ok () (replaced xs' w).
Proof.
  intros Hv Hl. unfold bind, new_array.
  rewrite (assign_value_array _ _ _ xs').
  - reflexivity.
  - by apply (held_not_fresh w l xs).
  - cbn [arrays set_arrays]. apply lookup_insert_eq.
Qed.

Lemma add_absent fuel w l xs x :
  value w = Array l → arrays w !! l = Some xs → x ∉ xs →
  __addCheckboxToValue (assign_value (S fuel)) x w = Ok () (replaced (xs ++ [x]) w).
Proof.
  intros Hv Hl Hx. unfold __addCheckboxToValue.
  rewrite bind_get, Hv. rewrite (bind_Ok _ _ _ _ _ (includes_array w l xs x Hl)).
  rewrite bool_decide_eq_false_2 by done. cbn [negb].
  rewrite bind_get, Hv. rewrite (bind_Ok _ _ _ _ _ (elements_of_array w l xs _ Hl)).
  by apply (assign_new_array fuel w l xs).
Qed.

Lemma remove_present fuel w l xs x :
  value w = Array l → arrays w !! l = Some xs → x ∈ xs →
  __removeCheckboxFromValue (assign_value (S fuel)) x w =
    Ok () (replaced (filter (λ y, y ≠ x) xs) w).
Proof.
  intros Hv Hl Hx. unfold __removeCheckboxFromValue.
  rewrite bind_get, Hv. rewrite (bind_Ok _ _ _ _ _ (includes_array w l xs x Hl)).
  rewrite bool_decide_eq_true_2 by done.
  rewrite bind_get, Hv. rewrite (bind_Ok _ _ _ _ _ (elements_of_array w l xs _ Hl)).
  by apply (assign_new_array fuel w l xs).
Qed.

(** What replacing the array of a group that holds an array amounts to. *)
Lemma replaced_array w l xs' :
  value w = Array l →
  let l' := fresh (dom (arrays w)) in
  let w' := replaced xs' w in
  value w' = Array l' ∧ arrays w' = <[l':=xs']> (arrays w) ∧
  checkboxes w' =
    sync xs' (filter (λ child, is_Some (checkboxes w !! child)) (children w))
      (checkboxes w) ∧
  log w' = log w ++ [Validated (valid (required w) xs'); ValueChanged (Array l')] ∧
  children w' = children w ∧ required w' = required w ∧ disabled w' = disabled w.
Proof.
  intros Hv. unfold replaced, after_value_changed.
  cbn [value set_value set_arrays]. rewrite Hv.
  rewrite (bool_decide_eq_false_2 (Array l = Undefined)) by done.
  rewrite (bool_decide_eq_true_2 (Array l ≠ Undefined)) by done.
  rewrite andb_false_r. cbn. by rewrite <- app_assoc.
Qed.

Lemma selection_Some w xs :
  selection w = Some xs ↔ ∃ l, value w = Array l ∧ arrays w !! l = Some xs.
Proof.
  unfold selection. destruct (value w) as [| |l]; split; try done.
  - intros (l & [=] & _).
  - intros (l & [=] & _).
  - intros Hl. by exists l.
  - by intros (l' & [= <-] & Hl).
Qed.

Lemma replaced_replaces w xs xs' :
  selection w = Some xs → replaces_array w (replaced xs' w) xs'.
Proof.
  intros (l & Hv & Hl)%selection_Some.
  destruct (replaced_array w l xs' Hv) as (Hv' & Harr & _ & Hlog & _).
  pose proof (is_fresh (dom (arrays w))) as Hfresh.
  rewrite elem_of_dom, <- eq_None_not_Some in Hfresh.
  exists (fresh (dom (arrays w))). rewrite Harr. split_and!; [done..| | |by eexists].
  - apply lookup_insert_eq.
  - intros l0 ys Hl0. rewrite lookup_insert_ne; [done|]. congruence.
Qed.

Lemma filter_absent xs x : x ∉ xs → filter (λ y, y ≠ x) xs = xs.
Proof.
  induction xs as [|y xs IH]; [done|]. intros Hx.
  rewrite filter_cons_True by (intros ->; apply Hx; left).
  rewrite IH; [done|]. intros Hin. apply Hx. by right.
Qed.

(** C2. On a group whose value is an array, [checkValidity()] returns, and
    what it returns is [false] exactly when the group is required and the
    array is empty: a required group with an empty array is invalid, a
    required group with a non-empty array is valid. *)
Theorem checkValidity_required_and_empty w xs :
  selection w = Some xs →
  ∃ b, checkValidity w = Ok b w ∧
       (b = false ↔ required w = true ∧ xs = []) ∧
       (required w = true → xs = [] → b = false) ∧
       (required w = true → xs ≠ [] → b = true).
Proof.
  intros (l & Hv & Hl)%selection_Some.
  exists (valid (required w) xs). split; [by apply (checkValidity_array w l)|].
  unfold valid. destruct (required w), xs as [|x xs]; cbn; split_and!; try done.
  - rewrite bool_decide_eq_false. split; [lia | by intros [_ [=]]].
  - split; [done | by intros [[=] _]].
  - split; [done | by intros [[=] _]].
Qed.

Lemma checkValidity_required_and_empty_witness :
  (∃ b, checkValidity (set_arrays <[1%positive:=[]]> sample) =
          Ok b (set_arrays <[1%positive:=[]]> sample) ∧ b = false) ∧
  (∃ b, checkValidity sample = Ok b sample ∧ b = true).
Proof.
  split.
  - destruct (checkValidity_required_and_empty (set_arrays <[1%positive:=[]]> sample) [])
      as (b & Hb & _ & Hempty & _); [reflexivity|].
    exists b. split; [exact Hb | by apply Hempty].
  - destruct (checkValidity_required_and_empty sample ["a"])
      as (b & Hb & _ & _ & Hfull); [reflexivity|].
    exists b. split; [exact Hb | by apply Hfull].
Defined.

(** C4. The mutators of [value] treat the array as a set. Adding a value
    that is present returns the state as it was: the same array object is
    held and nothing is notified. Removing a value that is absent does the
    same. An add or a remove that takes effect makes a new array, with the
    value appended or filtered out, and leaves every existing array object as
    it was. *)
Theorem value_mutators_set_semantics fuel w xs x :
  selection w = Some xs →
  (x ∈ xs → __addCheckboxToValue (assign_value fuel) x w = Ok () w) ∧
  (x ∉ xs → __removeCheckboxFromValue (assign_value fuel) x w = Ok () w) ∧
  (0 < fuel → x ∉ xs →
     ∃ w', __addCheckboxToValue (assign_value fuel) x w = Ok () w' ∧
           replaces_array w w' (xs ++ [x])) ∧
  (0 < fuel → x ∈ xs →
     ∃ w', __removeCheckboxFromValue (assign_value fuel) x w = Ok () w' ∧
           replaces_array w w' (filter (λ y, y ≠ x) xs)).
Proof.
  intros Hsel. pose proof Hsel as (l & Hv & Hl)%selection_Some. split_and!.
  - by apply (add_present _ w l xs).
  - by apply (remove_absent _ w l xs).
  - intros Hfuel Hx. destruct fuel as [|fuel]; [lia|].
    eexists. split; [by apply (add_absent fuel w l xs)|].
    by apply (replaced_replaces w xs).
  - intros Hfuel Hx. destruct fuel as [|fuel]; [lia|].
    eexists. split; [by apply (remove_present fuel w l xs)|].
    by apply (replaced_replaces w xs).
Qed.

Lemma value_mutators_set_semantics_witness :
  __addCheckboxToValue (assign_value 1) "a" sample = Ok () sample ∧
  __removeCheckboxFromValue (assign_value 1) "b" sample = Ok () sample ∧
  (∃ w', __addCheckboxToValue (assign_value 1) "b" sample = Ok () w' ∧
         replaces_array sample w' ["a"; "b"]) ∧
  (∃ w', __removeCheckboxFromValue (assign_value 1) "a" sample = Ok () w' ∧
         replaces_array sample w' []).
Proof.
  destruct (value_mutators_set_semantics 1 sample ["a"] "a") as (Hadd & _ & _ & Hrem);
    [reflexivity|].
  destruct (value_mutators_set_semantics 1 sample ["a"] "b") as (_ & Hrem' & Hadd' & _);
    [reflexivity|].
  split_and!.
  - apply Hadd. compute_done.
  - apply Hrem'. compute_done.
  - apply Hadd'; [lia | compute_done].
  - apply Hrem; [lia | compute_done].
Defined.

(** C10. The observer of [value] reads [value.length] before anything
    else: called on [null] or on [undefined] it throws a TypeError, whatever
    the old value and the state of the group. Hence assigning [null] or
    [undefined] to the [value] property of a group that holds anything else
    stores the value and throws that TypeError out of the assignment. *)
Theorem value_observer_has_no_null_guard :
  (∀ assign oldValue w,
     __valueChanged assign Null oldValue w = Exn (reading "null" "length") w ∧
     __valueChanged assign Undefined oldValue w = Exn (reading "undefined" "length") w) ∧
  (∀ fuel w v, 0 < fuel → v = Null ∨ v = Undefined → value w ≠ v →
     ∃ msg, assign_value fuel v w = Exn (TypeError msg) (set_value v w)).
Proof.
  split; [done|]. intros fuel w v Hfuel Hv Hne.
  destruct fuel as [|fuel]; [lia|]. cbn [assign_value].
  rewrite decide_False by done. rewrite bind_modify. cbv beta.
  destruct Hv as [-> | ->]; by eexists.
Qed.

Lemma value_observer_has_no_null_guard_witness :
  (∃ msg, assign_value 1 Null sample = Exn (TypeError msg) (set_value Null sample)) ∧
  (∃ msg, assign_value 1 Undefined sample =
            Exn (TypeError msg) (set_value Undefined sample)).
Proof.
  split.
  - apply (proj2 value_observer_has_no_null_guard 1 sample Null);
      [lia | by left | discriminate].
  - apply (proj2 value_observer_has_no_null_guard 1 sample Undefined);
      [lia | by right | discriminate].
Defined.

Lemma __unregisterCheckbox_array fuel w l xs r c :
  value w = Array l → arrays w !! l = Some xs → checkboxes w !! r = Some c →
  __unregisterCheckbox (assign_value (S fuel)) r w =
    Ok () (if cb_checked c && bool_decide (cb_value c ∈ xs)
           then replaced (filter (λ y, y ≠ cb_value c) xs) (detached r w)
           else detached r w).
Proof.
  intros Hv Hl Hc. unfold __unregisterCheckbox, removeEventListener.
  rewrite bind_modify. cbv beta. fold (detached r w).
  assert (checkboxes (detached r w) !! r = Some (with_listening false c)) as Hc'.
  { unfold detached. cbn [checkboxes set_checkboxes]. by rewrite lookup_alter_eq, Hc. }
  unfold checked_of, value_of. rewrite bind_get, Hc'.
  cbn [fmap option_fmap option_map default with_listening cb_checked id].
  destruct (cb_checked c); [|done]. cbn [andb].
  rewrite bind_get, Hc'.
  cbn [fmap option_fmap option_map default with_listening cb_value id].
  case_bool_decide.
  - by apply (remove_present fuel _ l xs).
  - by apply (remove_absent _ _ l xs).
Qed.

(** C8. Unregistering a checked checkbox leaves the group with its former
    selection minus the value of the checkbox, the other values in their
    former order. No array object that existed is changed; when the value
    was among the selection, the group holds a newly made array. *)
Theorem unregister_checked_checkbox fuel w xs r c :
  0 < fuel → selection w = Some xs →
  checkboxes w !! r = Some c → cb_checked c = true →
  ∃ w', __unregisterCheckbox (assign_value fuel) r w = Ok () w' ∧
        selection w' = Some (filter (λ y, y ≠ cb_value c) xs) ∧
        (cb_value c ∉ filter (λ y, y ≠ cb_value c) xs) ∧
        (∀ l ys, arrays w !! l = Some ys → arrays w' !! l = Some ys) ∧
        (cb_value c ∈ xs → ∃ l', value w' = Array l' ∧ arrays w !! l' = None).
Proof.
  intros Hfuel (l & Hv & Hl)%selection_Some Hc Hchecked.
  destruct fuel as [|fuel]; [lia|].
  eexists. split; [by apply (__unregisterCheckbox_array fuel w l xs r c)|].
  rewrite Hchecked. cbn [andb].
  assert (cb_value c ∉ filter (λ y, y ≠ cb_value c) xs) as Hgone.
  { intros [Hne _]%list_elem_of_filter. by apply Hne. }
  case_bool_decide as Hin.
  - assert (selection (detached r w) = Some xs) as Hsel.
    { apply selection_Some. by exists l. }
    destruct (replaced_replaces (detached r w) xs (filter (λ y, y ≠ cb_value c) xs) Hsel)
      as (l' & Hv' & Hnew & Hl' & Hold & _).
    split_and!; [|done..|by exists l'].
    apply selection_Some. by exists l'.
  - rewrite filter_absent by done. split_and!; try done.
    apply selection_Some. by exists l.
Qed.

Lemma unregister_checked_checkbox_witness :
  ∃ w', __unregisterCheckbox (assign_value 1) 2 sample_ab = Ok () w' ∧
        selection w' = Some ["a"] ∧
        ("b" ∉ ["a"]) ∧
        (∀ l ys, arrays sample_ab !! l = Some ys → arrays w' !! l = Some ys) ∧
        ("b" ∈ ["a"; "b"] → ∃ l', value w' = Array l' ∧ arrays sample_ab !! l' = None).
Proof.
  apply (unregister_checked_checkbox 1 sample_ab ["a"; "b"] 2
           (mkCheckbox "b" true true false true));
    [lia | reflexivity | reflexivity | reflexivity].
Defined.

End Mutators.

Section Registration.

Implicit Types (w : State) (r : ref) (l : loc) (xs : list string) (x : string).

Lemma sync_lookup xs cbs (m : gmap ref Checkbox) r :
  sync xs cbs m !! r =
    if decide (r ∈ cbs) then synced xs <$> m !! r else m !! r.
Proof.
  unfold sync. revert m. induction cbs as [|r' cbs IH]; intros m.
  { rewrite decide_False; [done|]. apply not_elem_of_nil. }
  cbn [foldl]. rewrite IH, lookup_alter.
  destruct (decide (r' = r)) as [->|Hne].
  - rewrite (decide_True (P := r ∈ r :: cbs)) by (by left).
    destruct (decide (r ∈ cbs)); [|done].
    by destruct (m !! r).
  - destruct (decide (r ∈ cbs)).
    + by rewrite decide_True by (by right).
    + rewrite decide_False; [done|]. by intros [?|?]%elem_of_cons.
Qed.

(** After the observer has run, a checkbox that was checked and whose value
    is selected is still checked, child of the group or not. *)
Lemma sync_keeps_checked xs cbs (m : gmap ref Checkbox) r c :
  m !! r = Some c → cb_checked c = true → cb_value c ∈ xs →
  sync xs cbs m !! r = Some c.
Proof.
  intros Hr Hc Hx. rewrite sync_lookup, Hr. case_decide; [|done].
  cbn. by rewrite synced_checked by (by rewrite Hc, bool_decide_eq_true_2).
Qed.

Lemma attached_frame r w :
  value (attached r w) = value w ∧ arrays (attached r w) = arrays w ∧
  log (attached r w) = log w ∧ children (attached r w) = children w ∧
  required (attached r w) = required w ∧ disabled (attached r w) = disabled w.
Proof.
  unfold attached. cbn [disabled set_checkboxes].
  destruct (disabled w) eqn:Hd; cbn; by rewrite ?Hd.
Qed.

Lemma attached_lookup r w c :
  checkboxes w !! r = Some c →
  ∃ c', checkboxes (attached r w) !! r = Some c' ∧
        cb_listening c' = true ∧ cb_checked c' = cb_checked c ∧
        cb_value c' = cb_value c ∧
        cb_has_value_attribute c' = cb_has_value_attribute c.
Proof.
  intros Hc. unfold attached. cbn [disabled set_checkboxes].
  destruct (disabled w); cbn [checkboxes set_checkboxes];
    rewrite !lookup_alter_eq, Hc; by eexists.
Qed.

Lemma selection_attached r w : selection (attached r w) = selection w.
Proof.
  unfold selection. by destruct (attached_frame r w) as (-> & -> & _).
Qed.

Lemma __registerCheckbox_array fuel w l xs r c :
  value w = Array l → arrays w !! l = Some xs → checkboxes w !! r = Some c →
  __registerCheckbox (assign_value (S fuel)) r w =
    Ok () (if cb_checked c
           then if bool_decide (cb_value c ∈ xs) then attached r w
                else replaced (xs ++ [cb_value c]) (attached r w)
           else if bool_decide (cb_value c ∈ xs)
                then set_checkboxes (alter (synced xs) r) (attached r w)
                else attached r w).
Proof.
  intros Hv Hl Hc.
  destruct (attached_lookup r w c Hc) as (c' & Hc' & _ & Hchecked & Hvalue & _).
  destruct (attached_frame r w) as (Hv' & Hl' & _).
  rewrite <- Hv' in Hv. rewrite <- Hl' in Hl. clear Hv' Hl'.
  unfold __registerCheckbox, addEventListener.
  rewrite bind_modify. cbv beta. rewrite bind_get.
  assert (∀ k : unit → M unit,
    bind (if disabled (set_checkboxes (alter (with_listening true) r) w)
          then modify (set_checkboxes (alter (with_disabled true) r))
          else ret ()) k (set_checkboxes (alter (with_listening true) r) w)
    = k () (attached r w)) as ->.
  { intros k. unfold attached. by destruct (disabled _). }
  unfold checked_of, value_of. rewrite bind_get, Hc'.
  cbn [fmap option_fmap option_map default id]. rewrite Hchecked.
  destruct (cb_checked c).
  - rewrite bind_get, Hc'. cbn [fmap option_fmap option_map default id].
    rewrite Hvalue. case_bool_decide.
    + by apply (add_present _ _ l xs).
    + by apply (add_absent fuel _ l xs).
  - rewrite bind_get, Hv, bind_get, Hc'.
    cbn [fmap option_fmap option_map default id]. rewrite Hvalue.
    rewrite (bind_Ok _ _ _ _ _ (includes_array _ l xs _ Hl)).
    case_bool_decide as Hin; [|done].
    apply (set_checked_synced _ _ l xs); [done..|].
    intros c0. rewrite Hc'. intros [= <-].
    by rewrite Hvalue, bool_decide_eq_true_2.
Qed.

Lemma selection_replaced w l xs' :
  value w = Array l → selection (replaced xs' w) = Some xs'.
Proof.
  intros Hv. destruct (replaced_array w l xs' Hv) as (Hv' & Harr & _).
  unfold selection. rewrite Hv', Harr. apply lookup_insert_eq.
Qed.

(** What registering one checkbox comes to, in closed form. *)
Lemma __registerCheckbox_outcome fuel w xs r c :
  0 < fuel → selection w = Some xs → checkboxes w !! r = Some c →
  ∃ w' c',
    __registerCheckbox (assign_value fuel) r w = Ok () w' ∧
    checkboxes w' !! r = Some c' ∧
    selection w' =
      Some (if cb_checked c && negb (bool_decide (cb_value c ∈ xs))
            then xs ++ [cb_value c] else xs) ∧
    cb_value c' = cb_value c ∧ cb_listening c' = true ∧
    cb_checked c' = cb_checked c || bool_decide (cb_value c ∈ xs).
Proof.
  intros Hfuel Hsel Hc. pose proof Hsel as (l & Hv & Hl)%selection_Some.
  destruct fuel as [|fuel]; [lia|].
  rewrite (__registerCheckbox_array fuel w l xs r c) by done.
  destruct (attached_lookup r w c Hc) as (c1 & Hc1 & Hlisten & Hchecked & Hvalue & _).
  pose proof (selection_attached r w) as Hsel1. rewrite Hsel in Hsel1.
  destruct (attached_frame r w) as (Hv1 & _). rewrite Hv in Hv1.
  destruct (cb_checked c) eqn:Hcc; case_bool_decide as Hin; cbn [andb orb negb].
  - (* checked and selected: nothing to add *)
    by exists (attached r w), c1.
  - (* checked and not selected: the value is appended to a new array *)
    assert (cb_value c1 ∈ xs ++ [cb_value c]) as Hin'.
    { rewrite Hvalue. apply elem_of_app. right. by left. }
    destruct (replaced_array (attached r w) l (xs ++ [cb_value c]) Hv1)
      as (_ & _ & Hcbs & _).
    exists (replaced (xs ++ [cb_value c]) (attached r w)), c1.
    split_and!; try done.
    + rewrite Hcbs. by apply sync_keeps_checked.
    + by apply (selection_replaced _ l).
  - (* not checked but selected: the checkbox gets checked *)
    exists (set_checkboxes (alter (synced xs) r) (attached r w)), (synced xs c1).
    split_and!; try done.
    + cbn [checkboxes set_checkboxes]. by rewrite lookup_alter_eq, Hc1.
    + cbn. rewrite Hvalue. by apply bool_decide_eq_true.
  - (* not checked and not selected: nothing to do *)
    by exists (attached r w), c1.
Qed.

(** C9. Registration brings the checkbox and the group in line, whichever
    of the two knew better. A checkbox that is checked has its value added
    to the selection, unless it is selected already, and stays checked. A
    checkbox that is not checked leaves the selection alone and gets checked
    when its value is selected. Either way the checkbox is listened to, and
    once registration returns it is checked exactly when its value is among
    the selection. *)
Theorem registration_synchronises fuel w xs r c :
  0 < fuel → selection w = Some xs → checkboxes w !! r = Some c →
  ∃ w' c' xs',
    __registerCheckbox (assign_value fuel) r w = Ok () w' ∧
    checkboxes w' !! r = Some c' ∧ selection w' = Some xs' ∧
    cb_value c' = cb_value c ∧ cb_listening c' = true ∧
    (cb_checked c = true →
       cb_checked c' = true ∧
       xs' = if bool_decide (cb_value c ∈ xs) then xs else xs ++ [cb_value c]) ∧
    (cb_checked c = false →
       xs' = xs ∧ cb_checked c' = bool_decide (cb_value c ∈ xs)) ∧
    (cb_checked c' = true ↔ cb_value c' ∈ xs').
Proof.
  intros Hfuel Hsel Hc.
  destruct (__registerCheckbox_outcome fuel w xs r c Hfuel Hsel Hc)
    as (w' & c' & Hrun & Hc' & Hsel' & Hvalue & Hlisten & Hchecked).
  exists w', c'. eexists. split_and!; [exact Hrun | exact Hc' | exact Hsel' | done..| | |].
  - intros Hcc. rewrite Hchecked, Hcc. split; [done|]. cbn [andb].
    by case_bool_decide.
  - intros Hcc. rewrite Hchecked, Hcc. by split.
  - rewrite Hchecked, Hvalue.
    destruct (cb_checked c); case_bool_decide as Hin; cbn [andb orb negb].
    + done.
    + split; [|done]. intros _. apply elem_of_app. right. by left.
    + done.
    + split; [done|]. by intros ?.
Qed.

Lemma registration_synchronises_witness :
  ∃ w' c' xs',
    __registerCheckbox (assign_value 1) 2 sample = Ok () w' ∧
    checkboxes w' !! 2%positive = Some c' ∧ selection w' = Some xs' ∧
    cb_checked c' = true ∧ xs' = ["a"; "b"].
Proof.
  destruct (registration_synchronises 1 sample ["a"] 2
              (mkCheckbox "b" true true false false))
    as (w' & c' & xs' & Hrun & Hc' & Hsel & _ & _ & Hchecked & _);
    [lia | reflexivity | reflexivity |].
  exists w', c', xs'. destruct Hchecked as [Hc Hxs]; [reflexivity|].
  split_and!; [exact Hrun | exact Hc' | exact Hsel | exact Hc | exact Hxs].
Defined.

End Registration.

Section Batch.

Implicit Types (w : State) (r : ref) (l : loc) (xs : list string) (rs : list ref).

Lemma steps_refl w : is_Some (selection w) → steps [] w w.
Proof.
  intros Hsel. split_and!; try done. exists []. split; [by rewrite app_nil_r|].
  apply not_elem_of_nil.
Qed.

Lemma steps_trans rs1 rs2 w1 w2 w3 :
  steps rs1 w1 w2 → steps rs2 w2 w3 → steps (rs1 ++ rs2) w1 w3.
Proof.
  intros (Hid1 & Hl1 & _ & evs1 & Hlog1 & Hw1) (Hid2 & Hl2 & Hsel & evs2 & Hlog2 & Hw2).
  split_and!; [| |done|].
  - intros r. by rewrite Hid2.
  - intros r [Hr1 Hr2]%not_elem_of_app. by rewrite Hl2, Hl1.
  - exists (evs1 ++ evs2). split.
    + by rewrite Hlog2, Hlog1, app_assoc.
    + by intros [?|?]%elem_of_app.
Qed.

(** A state that differs from [w] in its checkboxes only. *)
Lemma steps_checkboxes rs (f : gmap ref Checkbox → gmap ref Checkbox) w :
  is_Some (selection w) →
  (∀ r, (λ c, (cb_value c, cb_has_value_attribute c)) <$> f (checkboxes w) !! r
        = identity_of w r) →
  (∀ r, r ∉ rs → cb_listening <$> f (checkboxes w) !! r = listening_of w r) →
  steps rs w (set_checkboxes f w).
Proof.
  intros Hsel Hid Hlisten. split_and!; try done.
  exists []. split; [cbn; by rewrite app_nil_r | apply not_elem_of_nil].
Qed.

Lemma steps_alter rs (f : Checkbox → Checkbox) r w :
  is_Some (selection w) →
  (∀ c, cb_value (f c) = cb_value c ∧
        cb_has_value_attribute (f c) = cb_has_value_attribute c) →
  (r ∉ rs → ∀ c, cb_listening (f c) = cb_listening c) →
  steps rs w (set_checkboxes (alter f r) w).
Proof.
  intros Hsel Hid Hlisten. apply steps_checkboxes; [done|..].
  - intros r'. unfold identity_of. rewrite lookup_alter. case_decide; [subst r'|done].
    destruct (checkboxes w !! r) as [c|]; [|done]. cbn.
    by destruct (Hid c) as [-> ->].
  - intros r' Hr'. unfold listening_of. rewrite lookup_alter.
    case_decide; [subst r'|done].
    destruct (checkboxes w !! r) as [c|]; [|done]. cbn. by rewrite Hlisten.
Qed.

Lemma steps_attached r w : is_Some (selection w) → steps [r] w (attached r w).
Proof.
  intros Hsel. unfold attached. cbn [disabled set_checkboxes].
  assert (steps [r] w (set_checkboxes (alter (with_listening true) r) w)) as Hfirst.
  { apply steps_alter; [done|by intros []|]. intros Hr. destruct Hr. by left. }
  destruct (disabled w); [|done].
  apply (steps_trans [r] [] _ _ _ Hfirst).
  apply steps_alter;
    [by destruct Hfirst as (_ & _ & ? & _) | by intros [] | by intros _ []].
Qed.

Lemma steps_detached r w : is_Some (selection w) → steps [r] w (detached r w).
Proof.
  intros Hsel. apply steps_alter; [done|by intros []|].
  intros Hr. destruct Hr. by left.
Qed.

Lemma steps_replaced w l xs' :
  value w = Array l → steps [] w (replaced xs' w).
Proof.
  intros Hv. destruct (replaced_array w l xs' Hv) as (_ & _ & Hcbs & Hlog & _).
  split_and!.
  - intros r. unfold identity_of. rewrite Hcbs, sync_lookup.
    case_decide; [|done]. by destruct (checkboxes w !! r).
  - intros r _. unfold listening_of. rewrite Hcbs, sync_lookup.
    case_decide; [|done]. by destruct (checkboxes w !! r).
  - rewrite (selection_replaced w l) by done. by eexists.
  - eexists. split; [exact Hlog|].
    intros Hin. repeat (apply elem_of_cons in Hin as [Hin|Hin]; [discriminate|]).
    by apply elem_of_nil in Hin.
Qed.

Lemma is_checkbox_steps rs w w' r :
  steps rs w w' → is_Some (checkboxes w !! r) → is_Some (checkboxes w' !! r).
Proof.
  intros (Hid & _) Hr. specialize (Hid r). unfold identity_of in Hid.
  destruct Hr as [c Hc]. rewrite Hc in Hid.
  destruct (checkboxes w' !! r); [by eexists | done].
Qed.

Lemma __registerCheckbox_steps fuel w r :
  is_Some (selection w) → is_Some (checkboxes w !! r) →
  ∃ w', __registerCheckbox (assign_value (S fuel)) r w = Ok () w' ∧
        steps [r] w w' ∧ listening_of w' r = Some true.
Proof.
  intros [xs Hsel] [c Hc]. pose proof Hsel as (l & Hv & Hl)%selection_Some.
  rewrite (__registerCheckbox_array fuel w l xs r c) by done.
  eexists. split; [reflexivity|].
  assert (is_Some (selection (attached r w))) as Hsel1
    by (rewrite selection_attached; by eexists).
  destruct (attached_frame r w) as (Hv1 & _). rewrite Hv in Hv1.
  match goal with |- steps _ _ ?w' ∧ _ =>
    assert (steps [] (attached r w) w') as Hrest
  end.
  { destruct (cb_checked c); case_bool_decide.
    - by apply steps_refl.
    - by apply (steps_replaced _ l).
    - apply steps_alter; [done | by intros [] | by intros _ []].
    - by apply steps_refl. }
  split.
  - apply (steps_trans [r] [] _ _ _ (steps_attached r w ltac:(by eexists)) Hrest).
  - destruct Hrest as (_ & Hsame & _). rewrite Hsame by apply not_elem_of_nil.
    destruct (attached_lookup r w c Hc) as (c1 & Hc1 & Hlisten & _).
    unfold listening_of. rewrite Hc1. cbn. by rewrite Hlisten.
Qed.

Lemma __unregisterCheckbox_steps fuel w r :
  is_Some (selection w) → is_Some (checkboxes w !! r) →
  ∃ w', __unregisterCheckbox (assign_value (S fuel)) r w = Ok () w' ∧ steps [r] w w'.
Proof.
  intros [xs Hsel] [c Hc]. pose proof Hsel as (l & Hv & Hl)%selection_Some.
  rewrite (__unregisterCheckbox_array fuel w l xs r c) by done.
  eexists. split; [reflexivity|].
  pose proof (steps_detached r w ltac:(by eexists)) as Hfirst.
  destruct (cb_checked c && bool_decide (cb_value c ∈ xs)); [|done].
  apply (steps_trans [r] [] _ _ _ Hfirst). by apply (steps_replaced _ l).
Qed.

(** A loop over checkboxes whose every step is a step of the group. *)
Lemma forEach_steps (f : ref → M unit) rs w :
  (∀ r w, is_Some (selection w) → is_Some (checkboxes w !! r) →
          ∃ w', f r w = Ok () w' ∧ steps [r] w w') →
  is_Some (selection w) → Forall (λ r, is_Some (checkboxes w !! r)) rs →
  ∃ w', forEach rs f w = Ok () w' ∧ steps rs w w'.
Proof.
  intros Hf. revert w. induction rs as [|r rs IH]; intros w Hsel Hrs.
  { exists w. split; [done | by apply steps_refl]. }
  apply Forall_cons in Hrs as [Hr Hrs].
  destruct (Hf r w Hsel Hr) as (w1 & Hrun1 & Hsteps1).
  destruct (IH w1) as (w' & Hrun & Hsteps).
  { by destruct Hsteps1 as (_ & _ & ? & _). }
  { eapply Forall_impl; [exact Hrs|]. intros r'. by apply is_checkbox_steps with [r]. }
  exists w'. split.
  - cbn [forEach]. by rewrite (bind_Ok _ _ _ _ _ Hrun1).
  - apply (steps_trans [r] rs _ _ _ Hsteps1 Hsteps).
Qed.

(** Registering a batch: the group listens to every checkbox of the batch. *)
Lemma register_all fuel rs w :
  is_Some (selection w) → Forall (λ r, is_Some (checkboxes w !! r)) rs →
  ∃ w', forEach rs (__registerCheckbox (assign_value (S fuel))) w = Ok () w' ∧
        steps rs w w' ∧ ∀ r, r ∈ rs → listening_of w' r = Some true.
Proof.
  revert w. induction rs as [|r rs IH]; intros w Hsel Hrs.
  { exists w. split_and!; [done | by apply steps_refl |]. by intros r ?%elem_of_nil. }
  apply Forall_cons in Hrs as [Hr Hrs].
  destruct (__registerCheckbox_steps fuel w r Hsel Hr) as (w1 & Hrun1 & Hsteps1 & Hlisten1).
  destruct (IH w1) as (w' & Hrun & Hsteps & Hlisten).
  { by destruct Hsteps1 as (_ & _ & ? & _). }
  { eapply Forall_impl; [exact Hrs|]. intros r'. by apply is_checkbox_steps with [r]. }
  exists w'. split_and!.
  - cbn [forEach]. by rewrite (bind_Ok _ _ _ _ _ Hrun1).
  - apply (steps_trans [r] rs _ _ _ Hsteps1 Hsteps).
  - intros r' Hr'. destruct (decide (r' ∈ rs)) as [Hin|Hout]; [by apply Hlisten|].
    apply elem_of_cons in Hr' as [->|?]; [|done].
    destruct Hsteps as (_ & Hsame & _). by rewrite Hsame.
Qed.

Lemma without_value_steps rs w w' r :
  steps rs w w' →
  default false (without_value <$> checkboxes w' !! r) =
  default false (without_value <$> checkboxes w !! r).
Proof.
  intros (Hid & _). specialize (Hid r). unfold identity_of in Hid.
  destruct (checkboxes w' !! r) as [c'|], (checkboxes w !! r) as [c|]; try done.
  cbn in *. injection Hid as Hvalue Hattr. unfold without_value.
  by rewrite Hvalue, Hattr.
Qed.

Lemma existsb_ext {A} (f g : A → bool) (l : list A) :
  (∀ x, f x = g x) → existsb f l = existsb g l.
Proof. intros Hfg. induction l as [|x l IH]; [done|]. cbn. by rewrite Hfg, IH. Qed.

Lemma some_without_value w added :
  existsb (λ r, default false (without_value <$> checkboxes w !! r))
    (filter (λ child, is_Some (checkboxes w !! child)) added) = true ↔
  ∃ r c, r ∈ added ∧ checkboxes w !! r = Some c ∧ without_value c = true.
Proof.
  rewrite existsb_exists. split.
  - intros (r & [Hc Hin]%list_elem_of_In%list_elem_of_filter & Hr).
    destruct Hc as [c Hc]. rewrite Hc in Hr. by exists r, c.
  - intros (r & c & Hin & Hc & Hr). exists r. split.
    + apply list_elem_of_In, list_elem_of_filter. split; [by eexists | done].
    + by rewrite Hc.
Qed.

(** The callback of the slot observer on a group that holds an array. *)
Lemma slot_changed_steps fuel w added removed :
  is_Some (selection w) →
  let addedCheckboxes := filter (λ child, is_Some (checkboxes w !! child)) added in
  let removedCheckboxes := filter (λ child, is_Some (checkboxes w !! child)) removed in
  ∃ w1 w2,
    steps addedCheckboxes w w1 ∧ steps removedCheckboxes w1 w2 ∧
    (∀ r, r ∈ addedCheckboxes → listening_of w1 r = Some true) ∧
    slot_changed (assign_value (S fuel)) added removed w =
      Ok () (if existsb (λ r, default false (without_value <$> checkboxes w !! r))
                  addedCheckboxes
             then emit (ConsoleWarn warning) w2 else w2).
Proof.
  intros Hsel addedCheckboxes removedCheckboxes.
  destruct (register_all fuel addedCheckboxes w Hsel) as (w1 & Hrun1 & Hsteps1 & Hlisten).
  { apply Forall_forall. by intros r [? _]%list_elem_of_filter. }
  destruct (forEach_steps (__unregisterCheckbox (assign_value (S fuel)))
              removedCheckboxes w1) as (w2 & Hrun2 & Hsteps2).
  { intros. by apply __unregisterCheckbox_steps. }
  { by destruct Hsteps1 as (_ & _ & ? & _). }
  { apply Forall_forall. intros r [? _]%list_elem_of_filter.
    by apply (is_checkbox_steps addedCheckboxes w). }
  exists w1, w2. split_and!; [done..|].
  unfold slot_changed, __filterCheckboxes. rewrite !bind_get.
  fold addedCheckboxes removedCheckboxes.
  rewrite (bind_Ok _ _ _ _ _ Hrun1), (bind_Ok _ _ _ _ _ Hrun2).
  unfold __warnOfCheckboxesWithoutValue. rewrite bind_get.
  assert (existsb (λ r, default false (without_value <$> checkboxes w2 !! r))
            addedCheckboxes
          = existsb (λ r, default false (without_value <$> checkboxes w !! r))
              addedCheckboxes) as ->.
  { apply existsb_ext. intros r.
    rewrite (without_value_steps _ _ _ _ Hsteps2).
    apply (without_value_steps _ _ _ _ Hsteps1). }
  by destruct (existsb _ _).
Qed.

Lemma without_value_true c :
  without_value c = true ↔
  cb_has_value_attribute c = false ∧ (cb_value c = EmptyString ∨ cb_value c = "on").
Proof.
  unfold without_value.
  rewrite andb_true_iff, orb_true_iff, negb_true_iff, !bool_decide_eq_true. done.
Qed.

(** C7, as the specification words it, fails: a checkbox without a [value]
    attribute whose value was set by script (checkbox 4 of the sample, with
    value [c]) is registered without a word on the console. And on a group
    whose value is [null] the registration of a checkbox without the
    attribute (checkbox 3) does throw. *)
Lemma scripted_value_is_not_warned_about :
  (∃ c w', checkboxes sample !! 4%positive = Some c ∧
           cb_has_value_attribute c = false ∧
           slot_changed (assign_value 1) [4]%positive [] sample = Ok () w' ∧
           ∀ msg, ConsoleWarn msg ∉ log w') ∧
  (∃ c e w', checkboxes (set_value Null sample) !! 3%positive = Some c ∧
             cb_has_value_attribute c = false ∧
             __registerCheckbox (assign_value 1) 3 (set_value Null sample) = Exn e w').
Proof.
  split.
  - eexists _, _.
    split_and!; [reflexivity | reflexivity | vm_compute; reflexivity |].
    intros msg Hin. vm_compute in Hin.
    repeat (apply elem_of_cons in Hin as [Hin|Hin]; [discriminate|]).
    by apply elem_of_nil in Hin.
  - eexists _, _, _. split_and!; [reflexivity | reflexivity | vm_compute; reflexivity].
Qed.

(** C7, amended. On a group that holds an array, a checkbox without a
    [value] attribute is registered like any other: registration returns,
    the group listens to the checkbox, and the checkbox ends up checked
    exactly when the value it has is among the selection. A whole batch
    handed over by the slot observer is processed without an exception, the
    group listens to every added checkbox that is not removed in the same
    batch, and the batch writes the warning to the console exactly when one
    of the added checkboxes lacks the attribute and has the empty value or
    the default value [on]. *)
Theorem registration_without_value_attribute fuel w added removed :
  0 < fuel → is_Some (selection w) →
  (∀ r c, checkboxes w !! r = Some c → cb_has_value_attribute c = false →
     ∃ w' c' xs',
       __registerCheckbox (assign_value fuel) r w = Ok () w' ∧
       checkboxes w' !! r = Some c' ∧ selection w' = Some xs' ∧
       cb_listening c' = true ∧ cb_value c' = cb_value c ∧
       (cb_checked c' = true ↔ cb_value c ∈ xs')) ∧
  ∃ w', slot_changed (assign_value fuel) added removed w = Ok () w' ∧
    (∀ r c, r ∈ added → r ∉ removed → checkboxes w !! r = Some c →
       ∃ c', checkboxes w' !! r = Some c' ∧
             cb_listening c' = true ∧ cb_value c' = cb_value c) ∧
    ∃ evs, log w' = log w ++ evs ∧
      (ConsoleWarn warning ∈ evs ↔
       ∃ r c, r ∈ added ∧ checkboxes w !! r = Some c ∧
              cb_has_value_attribute c = false ∧
              (cb_value c = EmptyString ∨ cb_value c = "on")).
Proof.
  intros Hfuel Hsel. split.
  { intros r c Hc _. destruct Hsel as [xs Hsel].
    destruct (__registerCheckbox_outcome fuel w xs r c Hfuel Hsel Hc)
      as (w' & c' & Hrun & Hc' & Hsel' & Hvalue & Hlisten & Hchecked).
    exists w', c'. eexists. split_and!; [exact Hrun | exact Hc' | exact Hsel' | done..|].
    rewrite Hchecked.
    destruct (cb_checked c); case_bool_decide as Hin; cbn [andb orb negb].
    - done.
    - split; [|done]. intros _. apply elem_of_app. right. by left.
    - done.
    - split; [done|]. by intros ?. }
  destruct fuel as [|fuel]; [lia|].
  destruct (slot_changed_steps fuel w added removed Hsel)
    as (w1 & w2 & Hsteps1 & Hsteps2 & Hlisten & ->).
  pose proof (steps_trans _ _ _ _ _ Hsteps1 Hsteps2) as (Hid & _ & _ & evs & Hlog & Hevs).
  eexists. split; [reflexivity|]. split.
  - intros r c Hin Hout Hc.
    assert (listening_of w2 r = Some true) as Hl2.
    { destruct Hsteps2 as (_ & Hsame & _). rewrite Hsame.
      - apply Hlisten, list_elem_of_filter. split; [by eexists | done].
      - by intros [_ ?]%list_elem_of_filter. }
    specialize (Hid r). unfold identity_of, listening_of in *. rewrite Hc in Hid.
    assert (∀ w', checkboxes w' = checkboxes w2 →
              ∃ c', checkboxes w' !! r = Some c' ∧
                    cb_listening c' = true ∧ cb_value c' = cb_value c) as Hgoal.
    { intros w' ->. destruct (checkboxes w2 !! r) as [c2|]; [|done].
      cbn in *. exists c2. split_and!; [done|congruence..]. }
    apply Hgoal. by destruct (existsb _ _).
  - pose proof (some_without_value w added) as Hsome.
    setoid_rewrite without_value_true in Hsome. setoid_rewrite <- Hsome.
    destruct (existsb _ _).
    + exists (evs ++ [ConsoleWarn warning]). split.
      * cbn. by rewrite Hlog, app_assoc.
      * split; [done|]. intros _. apply elem_of_app. right. by left.
    + exists evs. split; [done|]. by split.
Qed.

Lemma registration_without_value_attribute_witness :
  (∃ w' c' xs',
     __registerCheckbox (assign_value 1) 3 sample = Ok () w' ∧
     checkboxes w' !! 3%positive = Some c' ∧ selection w' = Some xs' ∧
     cb_listening c' = true ∧ cb_value c' = "on" ∧
     (cb_checked c' = true ↔ "on" ∈ xs')) ∧
  ∃ w', slot_changed (assign_value 1) [2; 3; 9]%positive [] sample = Ok () w' ∧
        ∃ evs, log w' = log sample ++ evs ∧ ConsoleWarn warning ∈ evs.
Proof.
  destruct (registration_without_value_attribute 1 sample [2; 3; 9]%positive [])
    as (Hone & w' & Hrun & _ & evs & Hlog & Hwarn); [lia | by eexists |].
  split.
  - apply (Hone 3%positive (mkCheckbox "on" false false false false));
      reflexivity.
  - exists w'. split; [exact Hrun|]. exists evs. split; [exact Hlog|].
    apply Hwarn. exists 3%positive, (mkCheckbox "on" false false false false).
    split_and!; [compute_done | reflexivity | reflexivity | by right].
Defined.

End Batch.

(** The scenario of the specification: a required group with an empty
    selection is invalid; checking [v1] makes the selection [["v1"]] and the
    group valid; unchecking it brings back the empty selection and the
    invalid state. *)
Example required_group_scenario :
  checkValidity scenario = Ok false scenario ∧
  ∃ w1 w2,
    toggle 1 1 true scenario = Ok () w1 ∧
    selection w1 = Some ["v1"] ∧ checkValidity w1 = Ok true w1 ∧
    toggle 1 1 false w1 = Ok () w2 ∧
    selection w2 = Some [] ∧ checkValidity w2 = Ok false w2.
Proof.
  split; [reflexivity|]. eexists _, _.
  split_and!; [vm_compute; reflexivity | reflexivity | reflexivity
              | vm_compute; reflexivity | reflexivity | reflexivity].
Qed.

End CheckboxGroupSpec.
